(** * Medi-Friend backend: session lifecycle and reminder state engine

    A shallow embedding of [main.py] (the FastAPI handlers) over a model of
    the MongoDB document store, and the properties of its authentication,
    password-reset and medication handlers.

    Conventions of the embedding:
    - a [str] is the sequence of the bytes of its UTF-8 encoding, so an
      ASCII [str] is the sequence of its characters; what Python's own
      [str.upper()] returns is taken from the environment;
    - a [datetime] is an instant, an integer number of microseconds since
      the epoch (UTC), and a [timedelta] an integer number of microseconds;
      a stored [datetime] compares with a reading of the clock as instants
      do;
    - every call of [utc_now()] is one reading of the wall clock: the
      environment gives the sequence of readings, the world counts how
      many were taken;
    - a collection is a finite map from the store-generated [_id] to the
      document; a document is a record with one field per key the code
      writes, optional where the code reads it with [.get];
    - a handler is a computation in a state-and-exception monad: what was
      written before an exception is raised stays written. *)

From Stdlib Require Import ZArith NArith String Ascii List Bool Lia.
From stdpp Require Import base option gmap strings list fin_maps sorting.

Local Open Scope Z_scope.

(** ** Strings *)

Module PyStr.

(** A [str] all of whose characters are ASCII. *)
Definition is_ascii_char (c : ascii) : bool := (N_of_ascii c <? 128)%N.

Fixpoint is_ascii (s : string) : bool :=
  match s with
  | EmptyString => true
  | String c s' => is_ascii_char c && is_ascii s'
  end.

(** What [str.upper()] does to an ASCII [str]: the letters a to z become
    A to Z, every other character stays. On other strings [str.upper()]
    follows the Unicode tables, which are not part of this development:
    the handlers take it from the environment. *)
Definition ascii_upper_char (c : ascii) : ascii :=
  let n := N_of_ascii c in
  if ((97 <=? n) && (n <=? 122))%N then ascii_of_N (n - 32) else c.

(** [str.lower()] as far as [startswith("bearer ")] looks at it: the
    letters A to Z become a to z. No other character lowers to a letter of
    "bearer" or to a space, so the bytes above 127 can stay as they are. *)
Definition lower_char (c : ascii) : ascii :=
  let n := N_of_ascii c in
  if ((65 <=? n) && (n <=? 90))%N then ascii_of_N (n + 32) else c.

Fixpoint ascii_upper (s : string) : string :=
  match s with
  | EmptyString => EmptyString
  | String c s' => String (ascii_upper_char c) (ascii_upper s')
  end.

Fixpoint lower (s : string) : string :=
  match s with
  | EmptyString => EmptyString
  | String c s' => String (lower_char c) (lower s')
  end.

(** [s.startswith(p)] *)
Fixpoint startswith (s p : string) {struct p} : bool :=
  match p with
  | EmptyString => true
  | String b p' =>
      match s with
      | EmptyString => false
      | String a s' => Ascii.eqb a b && startswith s' p'
      end
  end.

(** [s.split(sep, 1)] for a one-character separator: at most two parts. *)
Fixpoint split1 (sep : ascii) (s : string) : list string :=
  match s with
  | EmptyString => [EmptyString]
  | String c s' =>
      if Ascii.eqb c sep then [EmptyString; s']
      else match split1 sep s' with
           | x :: r => String c x :: r
           | [] => [String c EmptyString]
           end
  end.

(** [s[:n]]: the first [n] characters of a [str], that is the bytes up to
    the [n+1]-th byte that starts a character. *)
Definition is_continuation (c : ascii) : bool :=
  ((128 <=? N_of_ascii c) && (N_of_ascii c <? 192))%N.

Fixpoint take_chars (n : nat) (s : string) : string :=
  match s with
  | EmptyString => EmptyString
  | String c s' =>
      if is_continuation c then String c (take_chars n s')
      else match n with
           | O => EmptyString
           | S n' => String c (take_chars n' s')
           end
  end.

End PyStr.

(** ** Time *)

Definition datetime := Z.
Definition timedelta := Z.

Definition microseconds_per_minute : Z := 60000000.

(** [timedelta(days=d, hours=h, minutes=m)] *)
Definition mk_timedelta (days hours minutes : Z) : timedelta :=
  ((days * 24 + hours) * 60 + minutes) * microseconds_per_minute.

(** ** ObjectId (bson) *)

Module Bson.

Definition hex_digit_val (c : ascii) : option N :=
  let n := N_of_ascii c in
  if ((48 <=? n) && (n <=? 57))%N then Some (n - 48)%N
  else if ((97 <=? n) && (n <=? 102))%N then Some (n - 87)%N
  else if ((65 <=? n) && (n <=? 70))%N then Some (n - 55)%N
  else None.

Fixpoint parse_hex (s : string) (acc : N) : option N :=
  match s with
  | EmptyString => Some acc
  | String c s' =>
      match hex_digit_val c with
      | Some d => parse_hex s' (16 * acc + d)%N
      | None => None
      end
  end.

(** The ASCII whitespace [bytes.fromhex] skips. *)
Definition is_space (c : ascii) : bool :=
  let n := N_of_ascii c in
  ((9 <=? n) && (n <=? 13))%N || (n =? 32)%N.

(** [bytes.fromhex(s)]: two hexadecimal digits per byte, whitespace allowed
    before a byte; [None] is its [ValueError]. *)
Fixpoint fromhex (s : string) : option (list N) :=
  match s with
  | EmptyString => Some []
  | String c s' =>
      if is_space c then fromhex s'
      else
        match hex_digit_val c, s' with
        | Some h, String c' s'' =>
            match hex_digit_val c', fromhex s'' with
            | Some l, Some bytes => Some ((16 * h + l)%N :: bytes)
            | _, _ => None
            end
        | _, _ => None
        end
  end.

(** An [ObjectId]: the twelve-byte identifiers, as the number their bytes
    spell, and the shorter byte strings that [ObjectId(s)] also lets
    through when [s] has whitespace in it. *)
Inductive oid :=
| Id (n : N)
| Short (binary : list N).

(** [ObjectId(s)] for a [str]: 24 characters that [bytes.fromhex] accepts,
    or [InvalidId] ([None]). 24 hexadecimal digits give twelve bytes. *)
Definition ObjectId (s : string) : option oid :=
  if Nat.eqb (String.length s) 24 then
    match parse_hex s 0%N with
    | Some n => Some (Id n)
    | None => option_map Short (fromhex s)
    end
  else None.

Definition hex_char (d : N) : ascii :=
  if (d <? 10)%N then ascii_of_N (48 + d) else ascii_of_N (87 + d).

Fixpoint hex_render (k : nat) (n : N) (acc : string) : string :=
  match k with
  | O => acc
  | S k' => hex_render k' (n / 16)%N (String (hex_char (n mod 16)%N) acc)
  end.

(** [str(oid)]: 24 lowercase hexadecimal characters. *)
Definition str (oid : N) : string := hex_render 24 oid EmptyString.

End Bson.

(** ** Documents *)

Module User.
Record t := mk {
  name : string;
  email : string;
  password_hash : string;
  notifications_enabled : option bool;
  reset_token : option string;
  reset_token_expires : option datetime;
  created_at : datetime;
  updated_at : datetime
}.
End User.

Module Session.
Record t := mk {
  user_id : string;
  token : string;
  created_at : datetime;
  expires_at : option datetime
}.
End Session.

Module Medication.
Record t := mk {
  user_id : string;
  name : string;
  dosage : string;
  time_12h : string;
  frequency : string;
  notes : option string;
  last_taken_at : option datetime;
  snooze_until_utc : option datetime;
  created_at : datetime;
  updated_at : datetime
}.
End Medication.

(** ** Request and response models *)

Module SignupIn.
Record t := mk { name : string; email : string; password : string }.
End SignupIn.

Module LoginIn.
Record t := mk { email : string; password : string }.
End LoginIn.

Module TokenOut.
Record t := mk {
  token : string;
  name : string;
  email : string;
  notifications_enabled : bool
}.
End TokenOut.

Module SettingsIn.
Record t := mk { notifications_enabled : option bool }.
End SettingsIn.

Module ForgotIn.
Record t := mk { email : string }.
End ForgotIn.

Module ResetIn.
Record t := mk { email : string; reset_token : string; new_password : string }.
End ResetIn.

Module MedicationIn.
Record t := mk {
  name : string;
  dosage : string;
  time_12h : string;
  frequency : string;
  notes : option string
}.
End MedicationIn.

Module MedicationOut.
Record t := mk {
  id : string;
  name : string;
  dosage : string;
  time_12h : string;
  frequency : string;
  notes : option string;
  last_taken_at : option datetime;
  snooze_until_utc : option datetime
}.
End MedicationOut.

(** The dictionary [drug_info] returns. *)
Module DrugInfo.
Record t := mk {
  found : bool;
  purpose : option string;
  side_effects : option string;
  dosage : option string;
  source : option string;
  error : option string
}.
End DrugInfo.

(** The dictionary [test_database] returns. *)
Module TestReport.
Record t := mk {
  backend : string;
  database : string;
  database_url : string;
  database_name : string;
  connection_status : string;
  collections : list string
}.
End TestReport.

(** The dictionary [get_current_user] returns. *)
Module Principal.
Record t := mk {
  _id : string;
  name : string;
  email : string;
  notifications_enabled : bool
}.
End Principal.

(** ** The store, the world and the environment *)

Record Database := mkDatabase {
  db_user : gmap N User.t;
  db_session : gmap N Session.t;
  db_medication : gmap N Medication.t
}.

(** [db] is [None] when the database is not configured. [ticks] counts the
    clock readings taken so far, [draws] the random tokens drawn so far. *)
Record World := mkWorld {
  db : option Database;
  ticks : nat;
  draws : nat
}.

(** One label of the OpenFDA answer: the keys [drug_info] reads. *)
Module FdaLabel.
Record t := mk {
  indications_and_usage : option (list string);
  adverse_reactions : option (list string);
  dosage_and_administration : option (list string)
}.
End FdaLabel.

(** What [requests.get(...)], [raise_for_status()] and [json()] come to:
    an exception, with its [str(e)], or the ["results"] of the answer
    (none when the key is absent). *)
Inductive HttpAnswer :=
| Raised (message : string)
| Results (results : list FdaLabel.t).

(** What the handlers take from outside the program. *)
Record Env := mkEnv {
  SALT : string;
  sha256_hexdigest : string → string;
  clock : nat → datetime;
  token_urlsafe : nat → nat → string;
  (** [str.upper()] *)
  str_upper : string → string;
  (** the answer to [requests.get(url, params={"search": ..., "limit": ...})] *)
  requests_get : string → string → N → HttpAnswer;
  (** [db.list_collection_names()], or the [str(e)] of its exception *)
  list_collection_names : string + list string;
  (** [os.getenv] *)
  getenv : string → option string
}.

Inductive exn :=
| HTTPException (status_code : Z) (detail : string)
| InvalidId
| TypeError
| IndexError.

(** ** The handler monad *)

Definition M (A : Type) : Type := World → (exn + A) * World.

Definition raise {A} (e : exn) : M A := λ w, (inl e, w).

#[global] Instance M_ret : MRet M := λ A a w, (inr a, w).

#[global] Instance M_bind : MBind M := λ A B k c w,
  match c w with
  | (inl e, w') => (inl e, w')
  | (inr a, w') => k a w'
  end.

(** ** Collections *)

Section Collection.
Context {A : Type}.

(** [find_one(filter)] for a filter on fields other than [_id]: the first
    matching document in the order of the collection's keys. *)
Definition find_one (P : A → bool) (c : gmap N A) : option (N * A) :=
  match List.find (λ k, match c !! k with Some d => P d | None => false end)
                  (elements (dom c)) with
  | Some k => match c !! k with Some d => Some (k, d) | None => None end
  | None => None
  end.

(** [find_one({"_id": id, ...filter})] *)
Definition find_by_id (id : N) (P : A → bool) (c : gmap N A) : option (N * A) :=
  match c !! id with
  | Some d => if P d then Some (id, d) else None
  | None => None
  end.

(** [insert_one(doc)]: the store generates an [_id] no document has. *)
Definition insert_one (d : A) (c : gmap N A) : N * gmap N A :=
  let id := fresh (dom c) in (id, <[id := d]> c).

(** [update_one({"_id": id}, update)] *)
Definition update_by_id (id : N) (f : A → A) (c : gmap N A) : gmap N A :=
  alter f id c.

(** [delete_one(filter)] *)
Definition delete_one (P : A → bool) (c : gmap N A) : gmap N A :=
  match find_one P c with
  | Some (k, _) => delete k c
  | None => c
  end.

(** [delete_one({"_id": id, ...filter})] *)
Definition delete_by_id (id : N) (P : A → bool) (c : gmap N A) : gmap N A :=
  match find_by_id id P c with
  | Some (k, _) => delete k c
  | None => c
  end.

(** The same with the [_id] given as an [ObjectId]. Every stored [_id]
    has twelve bytes, so a shorter one names no document. *)
Definition find_by_oid (o : Bson.oid) (P : A → bool) (c : gmap N A)
    : option (N * A) :=
  match o with
  | Bson.Id id => find_by_id id P c
  | Bson.Short _ => None
  end.

Definition update_by_oid (o : Bson.oid) (f : A → A) (c : gmap N A) : gmap N A :=
  match o with
  | Bson.Id id => update_by_id id f c
  | Bson.Short _ => c
  end.

Definition delete_by_oid (o : Bson.oid) (P : A → bool) (c : gmap N A) : gmap N A :=
  match o with
  | Bson.Id id => delete_by_id id P c
  | Bson.Short _ => c
  end.

End Collection.


(** ** Document updates ([$set] and [$unset]) *)

Definition user_set_reset (tok : string) (exp : datetime) (u : User.t) : User.t :=
  User.mk (User.name u) (User.email u) (User.password_hash u)
          (User.notifications_enabled u) (Some tok) (Some exp)
          (User.created_at u) (User.updated_at u).

Definition user_set_password_unset_reset (h : string) (u : User.t) : User.t :=
  User.mk (User.name u) (User.email u) h
          (User.notifications_enabled u) None None
          (User.created_at u) (User.updated_at u).

Definition user_set_notifications (b : bool) (u : User.t) : User.t :=
  User.mk (User.name u) (User.email u) (User.password_hash u)
          (Some b) (User.reset_token u) (User.reset_token_expires u)
          (User.created_at u) (User.updated_at u).

Definition med_set_fields (name dosage time_12h frequency : string)
    (notes : option string) (updated_at : datetime) (m : Medication.t) : Medication.t :=
  Medication.mk (Medication.user_id m) name dosage time_12h frequency notes
                (Medication.last_taken_at m) (Medication.snooze_until_utc m)
                (Medication.created_at m) updated_at.

Definition med_set_taken (last_taken_at : datetime) (updated_at : datetime)
    (m : Medication.t) : Medication.t :=
  Medication.mk (Medication.user_id m) (Medication.name m) (Medication.dosage m)
                (Medication.time_12h m) (Medication.frequency m) (Medication.notes m)
                (Some last_taken_at) None
                (Medication.created_at m) updated_at.

Definition med_set_snooze (snooze_until_utc : datetime) (updated_at : datetime)
    (m : Medication.t) : Medication.t :=
  Medication.mk (Medication.user_id m) (Medication.name m) (Medication.dosage m)
                (Medication.time_12h m) (Medication.frequency m) (Medication.notes m)
                (Medication.last_taken_at m) (Some snooze_until_utc)
                (Medication.created_at m) updated_at.

Definition with_user (f : gmap N User.t → gmap N User.t) (d : Database) : Database :=
  mkDatabase (f (db_user d)) (db_session d) (db_medication d).

Definition with_session (f : gmap N Session.t → gmap N Session.t) (d : Database) : Database :=
  mkDatabase (db_user d) (f (db_session d)) (db_medication d).

Definition with_medication (f : gmap N Medication.t → gmap N Medication.t)
    (d : Database) : Database :=
  mkDatabase (db_user d) (db_session d) (f (db_medication d)).

(** ** Helpers of [main.py] *)

(** [db[...]]: subscripting [None] is a [TypeError]. *)
Definition read_db : M Database := λ w,
  match db w with
  | Some d => (inr d, w)
  | None => (inl TypeError, w)
  end.

Definition modify_db (f : Database → Database) : M () := λ w,
  match db w with
  | Some d => (inr (), mkWorld (Some (f d)) (ticks w) (draws w))
  | None => (inl TypeError, w)
  end.

Definition require_db : M () := λ w,
  match db w with
  | Some _ => (inr (), w)
  | None => (inl (HTTPException 500 "Database not configured"), w)
  end.

Definition ObjectId (s : string) : M Bson.oid :=
  match Bson.ObjectId s with
  | Some oid => mret oid
  | None => raise InvalidId
  end.

(** [authorization.split(" ", 1)[1]] *)
Definition bearer_token (authorization : string) : M string :=
  match PyStr.split1 " " authorization !! 1%nat with
  | Some t => mret t
  | None => raise IndexError
  end.

(** [authorization and authorization.lower().startswith("bearer ")] *)
Definition is_bearer (authorization : option string) : bool :=
  match authorization with
  | None => false
  | Some a => negb (String.eqb a "") && PyStr.startswith (PyStr.lower a) "bearer "
  end.

(** [opt != s] for an optional field read with [.get] and a [str]. *)
Definition opt_str_ne (o : option string) (s : string) : bool :=
  match o with
  | Some t => negb (String.eqb t s)
  | None => true
  end.

Section Handlers.
Context (env : Env).

Definition hash_password (password : string) : string :=
  sha256_hexdigest env (password +:+ SALT env).

Definition utc_now : M datetime := λ w,
  (inr (clock env (ticks w)), mkWorld (db w) (S (ticks w)) (draws w)).

(** IST is UTC+5:30. *)
Definition ist_now : M datetime :=
  now ← utc_now;
  mret (now + mk_timedelta 0 5 30).

(** [secrets.token_urlsafe(nbytes)] *)
Definition secrets_token_urlsafe (nbytes : nat) : M string := λ w,
  (inr (token_urlsafe env (draws w) nbytes), mkWorld (db w) (ticks w) (S (draws w))).

(** [db[...].insert_one(doc).inserted_id] *)
Definition insert_user (doc : User.t) : M N :=
  d ← read_db;
  let '(id, c) := insert_one doc (db_user d) in
  modify_db (with_user (λ _, c));;
  mret id.

Definition insert_session (doc : Session.t) : M N :=
  d ← read_db;
  let '(id, c) := insert_one doc (db_session d) in
  modify_db (with_session (λ _, c));;
  mret id.

Definition insert_medication (doc : Medication.t) : M N :=
  d ← read_db;
  let '(id, c) := insert_one doc (db_medication d) in
  modify_db (with_medication (λ _, c));;
  mret id.

Definition get_user_by_email (email : string) : M (option (N * User.t)) :=
  require_db;;
  d ← read_db;
  mret (find_one (λ u, String.eqb (User.email u) email) (db_user d)).

(** *** Auth dependency *)

Definition get_current_user (authorization : option string) : M Principal.t :=
  require_db;;
  if negb (is_bearer authorization) then raise (HTTPException 401 "Missing token")
  else
    token ← bearer_token (default "" authorization);
    d ← read_db;
    match find_one (λ s, String.eqb (Session.token s) token) (db_session d) with
    | None => raise (HTTPException 401 "Invalid token")
    | Some (sess_id, sess) =>
        uid ← ObjectId (Session.user_id sess);
        d ← read_db;
        match find_by_oid uid (λ _, true) (db_user d) with
        | None => raise (HTTPException 401 "User not found")
        | Some (user_id, user) =>
            expired ← match Session.expires_at sess with
                      | None => mret false
                      | Some e => now ← utc_now; mret (e <? now)
                      end;
            if expired : bool then
              modify_db (with_session (delete_by_id sess_id (λ _, true)));;
              raise (HTTPException 401 "Session expired")
            else
              mret (Principal.mk (Bson.str user_id) (User.name user) (User.email user)
                                 (default true (User.notifications_enabled user)))
        end
    end.

(** *** Auth routes *)

Definition signup (payload : SignupIn.t) : M TokenOut.t :=
  require_db;;
  existing ← get_user_by_email (SignupIn.email payload);
  match existing with
  | Some _ => raise (HTTPException 400 "Email already registered")
  | None =>
      created ← utc_now;
      updated ← utc_now;
      let user_doc :=
        User.mk (SignupIn.name payload) (SignupIn.email payload)
                (hash_password (SignupIn.password payload))
                (Some true) None None created updated in
      user_id ← insert_user user_doc;
      token ← secrets_token_urlsafe 32;
      s_created ← utc_now;
      s_now ← utc_now;
      insert_session (Session.mk (Bson.str user_id) token s_created
                                 (Some (s_now + mk_timedelta 7 0 0)));;
      mret (TokenOut.mk token (SignupIn.name payload) (SignupIn.email payload) true)
  end.

Definition login (payload : LoginIn.t) : M TokenOut.t :=
  require_db;;
  found ← get_user_by_email (LoginIn.email payload);
  match found with
  | None => raise (HTTPException 401 "Invalid credentials")
  | Some (user_id, user) =>
      if negb (String.eqb (User.password_hash user)
                          (hash_password (LoginIn.password payload)))
      then raise (HTTPException 401 "Invalid credentials")
      else
        token ← secrets_token_urlsafe 32;
        s_created ← utc_now;
        s_now ← utc_now;
        insert_session (Session.mk (Bson.str user_id) token s_created
                                   (Some (s_now + mk_timedelta 7 0 0)));;
        mret (TokenOut.mk token (User.name user) (User.email user)
                          (default true (User.notifications_enabled user)))
  end.

Definition logout (authorization : option string) : M () :=
  require_db;;
  if is_bearer authorization then
    token ← bearer_token (default "" authorization);
    modify_db (with_session (delete_one (λ s, String.eqb (Session.token s) token)))
  else mret ().

(** Returns the reset token when the email is known. *)
Definition forgot (payload : ForgotIn.t) : M (option string) :=
  require_db;;
  found ← get_user_by_email (ForgotIn.email payload);
  match found with
  | None => mret None
  | Some (user_id, _) =>
      reset_token ← secrets_token_urlsafe 8;
      now ← utc_now;
      modify_db (with_user (update_by_id user_id
        (user_set_reset reset_token (now + mk_timedelta 0 1 0))));;
      mret (Some reset_token)
  end.

Definition reset (payload : ResetIn.t) : M () :=
  require_db;;
  found ← get_user_by_email (ResetIn.email payload);
  match found with
  | None => raise (HTTPException 400 "Invalid or expired token")
  | Some (user_id, user) =>
      if opt_str_ne (User.reset_token user) (ResetIn.reset_token payload)
      then raise (HTTPException 400 "Invalid or expired token")
      else
        now ← utc_now;
        match User.reset_token_expires user with
        | None => raise TypeError
        | Some expires =>
            if expires <? now
            then raise (HTTPException 400 "Invalid or expired token")
            else
              modify_db (with_user (update_by_id user_id
                (user_set_password_unset_reset
                   (hash_password (ResetIn.new_password payload)))))
        end
  end.

Definition me (user : Principal.t) : M Principal.t := mret user.

Definition update_settings (settings : SettingsIn.t) (user : Principal.t)
    : M Principal.t :=
  require_db;;
  match SettingsIn.notifications_enabled settings with
  | None => mret user
  | Some b =>
      uid ← ObjectId (Principal._id user);
      modify_db (with_user (update_by_oid uid (user_set_notifications b)));;
      mret (Principal.mk (Principal._id user) (Principal.name user)
                         (Principal.email user) b)
  end.

(** *** Medication routes *)

Definition owned_by (user : Principal.t) (m : Medication.t) : bool :=
  String.eqb (Medication.user_id m) (Principal._id user).

Definition medication_out (id : N) (m : Medication.t) : MedicationOut.t :=
  MedicationOut.mk (Bson.str id) (Medication.name m) (Medication.dosage m)
                   (Medication.time_12h m) (Medication.frequency m)
                   (Medication.notes m) (Medication.last_taken_at m)
                   (Medication.snooze_until_utc m).

(** [find({"user_id": ...}).sort("created_at", 1)] *)
Definition created_before (a b : N * Medication.t) : Prop :=
  Medication.created_at (snd a) ≤ Medication.created_at (snd b).

#[global] Instance created_before_dec a b : Decision (created_before a b).
Proof. unfold created_before. apply _. Defined.

Definition list_meds (user : Principal.t) : M (list MedicationOut.t) :=
  require_db;;
  d ← read_db;
  let meds := merge_sort created_before
                (List.filter (λ kv, owned_by user (snd kv))
                             (map_to_list (db_medication d))) in
  mret (List.map (λ kv, medication_out (fst kv) (snd kv)) meds).

Definition create_med (med : MedicationIn.t) (user : Principal.t)
    : M MedicationOut.t :=
  require_db;;
  created ← utc_now;
  updated ← utc_now;
  let doc :=
    Medication.mk (Principal._id user) (MedicationIn.name med)
                  (MedicationIn.dosage med)
                  (str_upper env (MedicationIn.time_12h med))
                  (MedicationIn.frequency med) (MedicationIn.notes med)
                  None None created updated in
  id ← insert_medication doc;
  mret (MedicationOut.mk (Bson.str id) (Medication.name doc) (Medication.dosage doc)
                         (Medication.time_12h doc) (Medication.frequency doc)
                         (Medication.notes doc) None None).

Definition update_med (med_id : string) (med : MedicationIn.t) (user : Principal.t)
    : M MedicationOut.t :=
  require_db;;
  oid ← ObjectId med_id;
  d ← read_db;
  match find_by_oid oid (owned_by user) (db_medication d) with
  | None => raise (HTTPException 404 "Not found")
  | Some (m_id, m) =>
      now ← utc_now;
      let updates :=
        med_set_fields (MedicationIn.name med) (MedicationIn.dosage med)
                       (str_upper env (MedicationIn.time_12h med))
                       (MedicationIn.frequency med) (MedicationIn.notes med) now in
      modify_db (with_medication (update_by_id m_id updates));;
      mret (medication_out m_id (updates m))
  end.

Definition delete_med (med_id : string) (user : Principal.t) : M () :=
  require_db;;
  oid ← ObjectId med_id;
  modify_db (with_medication (delete_by_oid oid (owned_by user))).

Definition mark_taken (med_id : string) (user : Principal.t) : M () :=
  require_db;;
  oid ← ObjectId med_id;
  d ← read_db;
  match find_by_oid oid (owned_by user) (db_medication d) with
  | None => raise (HTTPException 404 "Not found")
  | Some (m_id, _) =>
      taken ← utc_now;
      updated ← utc_now;
      modify_db (with_medication (update_by_id m_id (med_set_taken taken updated)))
  end.

(** Returns the [snooze_until_utc] of the response, before [isoformat()]. *)
Definition snooze (med_id : string) (user : Principal.t) : M datetime :=
  require_db;;
  oid ← ObjectId med_id;
  d ← read_db;
  match find_by_oid oid (owned_by user) (db_medication d) with
  | None => raise (HTTPException 404 "Not found")
  | Some (m_id, _) =>
      now ← utc_now;
      updated ← utc_now;
      modify_db (with_medication (update_by_id m_id
        (med_set_snooze (now + mk_timedelta 0 0 10) updated)));;
      answered ← utc_now;
      mret (answered + mk_timedelta 0 0 10)
  end.

(** *** Routes that do not look at the store *)

Definition read_root : M string := mret "Medi-Friend API is running".

(** [(res.get(key) or [None])[0]] *)
Definition first_or_None (field : option (list string)) : option string :=
  match field with
  | Some (x :: _) => Some x
  | _ => None
  end.

(** Proxy to the OpenFDA label endpoint. Every exception is caught. *)
Definition drug_info (q : string) : M DrugInfo.t :=
  let url := "https://api.fda.gov/drug/label.json" in
  let search := "openfda.brand_name:" +:+ q +:+ "+openfda.generic_name:" +:+ q in
  match requests_get env url search 1 with
  | Raised message =>
      mret (DrugInfo.mk false None None None None (Some message))
  | Results [] => mret (DrugInfo.mk false None None None None None)
  | Results (res :: _) =>
      mret (DrugInfo.mk true
              (first_or_None (FdaLabel.indications_and_usage res))
              (first_or_None (FdaLabel.adverse_reactions res))
              (first_or_None (FdaLabel.dosage_and_administration res))
              (Some "OpenFDA") None)
  end.

(** [bool(os.getenv(name))] *)
Definition getenv_set (name : string) : bool :=
  match getenv env name with
  | Some v => negb (String.eqb v "")
  | None => false
  end.

(** The values given to ["database_url"] and ["database_name"] while the
    store is looked at are overwritten at the end. *)
Definition test_database : M TestReport.t := λ w,
  let '(database, connection_status, collections) :=
    match db w with
    | Some _ =>
        match list_collection_names env with
        | inr names => ("✅ Connected & Working", "Connected", take 10 names)
        | inl message =>
            ("⚠️  Connected but Error: " +:+ PyStr.take_chars 50 message, "Connected", [])
        end
    | None => ("⚠️  Available but not initialized", "Not Connected", [])
    end in
  let set_or_not (name : string) :=
    if getenv_set name then "✅ Set" else "❌ Not Set" in
  (inr (TestReport.mk "✅ Running" database
                      (set_or_not "DATABASE_URL") (set_or_not "DATABASE_NAME")
                      connection_status collections),
   w).

(** *** Requests

    A route that declares [user=Depends(get_current_user)] runs the
    dependency on the [Authorization] header first. *)

Definition Depends {A} (authorization : option string)
    (handler : Principal.t → M A) : M A :=
  user ← get_current_user authorization;
  handler user.

Inductive Request :=
| GET_root
| GET_drug_info (q : string)
| GET_test
| POST_auth_signup (payload : SignupIn.t)
| POST_auth_login (payload : LoginIn.t)
| POST_auth_logout (authorization : option string)
| POST_auth_forgot (payload : ForgotIn.t)
| POST_auth_reset (payload : ResetIn.t)
| GET_me (authorization : option string)
| PUT_me_settings (settings : SettingsIn.t) (authorization : option string)
| GET_medications (authorization : option string)
| POST_medications (med : MedicationIn.t) (authorization : option string)
| PUT_medications (med_id : string) (med : MedicationIn.t) (authorization : option string)
| DELETE_medications (med_id : string) (authorization : option string)
| POST_medications_taken (med_id : string) (authorization : option string)
| POST_medications_snooze (med_id : string) (authorization : option string).

(** The world after a request was served, whatever the answer was. *)
Definition serve (r : Request) (w : World) : World :=
  match r with
  | GET_root => snd (read_root w)
  | GET_drug_info q => snd (drug_info q w)
  | GET_test => snd (test_database w)
  | POST_auth_signup p => snd (signup p w)
  | POST_auth_login p => snd (login p w)
  | POST_auth_logout a => snd (logout a w)
  | POST_auth_forgot p => snd (forgot p w)
  | POST_auth_reset p => snd (reset p w)
  | GET_me a => snd (Depends a me w)
  | PUT_me_settings s a => snd (Depends a (update_settings s) w)
  | GET_medications a => snd (Depends a list_meds w)
  | POST_medications m a => snd (Depends a (create_med m) w)
  | PUT_medications i m a => snd (Depends a (update_med i m) w)
  | DELETE_medications i a => snd (Depends a (delete_med i) w)
  | POST_medications_taken i a => snd (Depends a (mark_taken i) w)
  | POST_medications_snooze i a => snd (Depends a (snooze i) w)
  end.

End Handlers.

(** The values [schemas.py] gives to [Medication.frequency]:
    [Literal['daily','alternate','weekly']]. *)
Definition Medication_frequency_Literal : list string :=
  ["daily"; "alternate"; "weekly"].

(** ** Reading the world *)

Definition user_of (w : World) (id : N) : option User.t :=
  db w ≫= λ d, db_user d !! id.

Definition session_of (w : World) (id : N) : option Session.t :=
  db w ≫= λ d, db_session d !! id.

Definition medication_of (w : World) (id : N) : option Medication.t :=
  db w ≫= λ d, db_medication d !! id.

(** [find_one({"token": token})] on the sessions of the world. *)
Definition session_by_token (w : World) (token : string) : option (N * Session.t) :=
  db w ≫= λ d, find_one (λ s, String.eqb (Session.token s) token) (db_session d).

(** [find_one({"email": email})] on the users of the world. *)
Definition user_by_email (w : World) (email : string) : option (N * User.t) :=
  db w ≫= λ d, find_one (λ u, String.eqb (User.email u) email) (db_user d).

(** What is known of [str.upper()] without the Unicode tables: on an ASCII
    [str] it is [PyStr.ascii_upper]. *)
Definition upper_on_ascii (env : Env) : Prop :=
  ∀ s, PyStr.is_ascii s = true → str_upper env s = PyStr.ascii_upper s.

(** The 401 answers, which the transport layer reports alike. *)
Definition unauthenticated {A} (r : exn + A) : Prop :=
  ∃ detail, r = inl (HTTPException 401 detail).

(** A user document carries [reset_token] exactly when it carries
    [reset_token_expires]. *)
Definition reset_paired_user (u : User.t) : Prop :=
  is_Some (User.reset_token u) ↔ is_Some (User.reset_token_expires u).

Definition users_paired (d : Database) : Prop :=
  ∀ id u, db_user d !! id = Some u → reset_paired_user u.

Definition reset_paired (w : World) : Prop :=
  ∀ id u, user_of w id = Some u → reset_paired_user u.

(** ** What a handler leaves true *)

Definition preserves {A} (P : World → Prop) (c : M A) : Prop :=
  ∀ w, P w → P (snd (c w)).

(** ** A small deployment, used by the examples *)

Module Example.

(** The endpoint knows one label. *)
Definition fda_answer : HttpAnswer :=
  Results [FdaLabel.mk (Some ["Pain relief"; "Fever"]) None (Some [])].

(** The clock advances by one microsecond at each reading; the digest is a
    stand-in that keeps its input; [str.upper()] is given on ASCII
    strings. *)
Definition ticking : Env :=
  mkEnv "medi-friend-demo-salt" (λ s, s) (λ n, 1000 + Z.of_nat n)
        (λ n _, "tok" +:+ Bson.str (N.of_nat n))
        PyStr.ascii_upper (λ _ _ _, fda_answer)
        (inr ["user"; "session"; "medication"]) (λ _, None).

(** The clock stands at [now]. *)
Definition frozen (now : datetime) : Env :=
  mkEnv "medi-friend-demo-salt" (λ s, s) (λ _, now)
        (λ n _, "tok" +:+ Bson.str (N.of_nat n))
        PyStr.ascii_upper (λ _ _ _, fda_answer)
        (inr ["user"; "session"; "medication"]) (λ _, None).

Definition alice : User.t :=
  User.mk "Alice" "a@x.com" "pw1medi-friend-demo-salt" (Some true)
          (Some "r3s3t") (Some 5000) 0 0.

Definition alice_principal : Principal.t :=
  Principal.mk (Bson.str 1) "Alice" "a@x.com" true.

Definition bob_principal : Principal.t :=
  Principal.mk (Bson.str 2) "Bob" "b@x.com" true.

Definition alice_session : Session.t :=
  Session.mk (Bson.str 1) "T1" 0 (Some 5000).

(** A session whose user document does not exist. *)
Definition orphan_session : Session.t :=
  Session.mk (Bson.str 9) "T9" 0 (Some 5000).

Definition aspirin : Medication.t :=
  Medication.mk (Bson.str 1) "Aspirin" "1 tablet" "8:05 PM" "daily" None
                (Some 10) (Some 20) 0 0.

Definition world : World :=
  mkWorld (Some (mkDatabase {[ 1%N := alice ]}
                            {[ 1%N := alice_session; 2%N := orphan_session ]}
                            {[ 7%N := aspirin ]}))
          0 0.

Definition empty_world : World := mkWorld (Some (mkDatabase ∅ ∅ ∅)) 0 0.

Definition hourly : MedicationIn.t :=
  MedicationIn.mk "Ibuprofen" "200mg" "8:05 pm" "hourly" None.

End Example.

(** Unfolds a handler down to the store operations. *)
Ltac run_handler :=
  unfold Depends, get_current_user, signup, login, logout, forgot, reset, me,
    update_settings, list_meds, create_med, update_med, delete_med, mark_taken,
    snooze, get_user_by_email, insert_user, insert_session, insert_medication,
    read_root, drug_info, test_database, find_by_oid, update_by_oid, delete_by_oid,
    ObjectId, bearer_token, require_db, read_db, modify_db, utc_now,
    secrets_token_urlsafe, raise, mbind, M_bind, mret, M_ret; simpl.

(** ** Worlds the server can be in

    The store starts empty (or is not configured) and changes only by
    serving requests. *)

Inductive reachable (env : Env) : World → Prop :=
| reachable_unconfigured t dr : reachable env (mkWorld None t dr)
| reachable_empty t dr : reachable env (mkWorld (Some (mkDatabase ∅ ∅ ∅)) t dr)
| reachable_serve r w : reachable env w → reachable env (serve env r w).

(** ** More ways to read a world and an answer *)

(** No two user documents share an email. *)
Definition emails_unique (w : World) : Prop :=
  ∀ i j u v, user_of w i = Some u → user_of w j = Some v →
             User.email u = User.email v → i = j.

(** Every stored [time_12h] is what [str.upper()] made of some string. *)
Definition times_uppercase (env : Env) (w : World) : Prop :=
  ∀ id m, medication_of w id = Some m →
          ∃ s, Medication.time_12h m = str_upper env s.

(** The exception a handler run ended in, if any. *)
Definition raised_by {A} (r : (exn + A) * World) : option exn :=
  match fst r with
  | inl e => Some e
  | inr _ => None
  end.

(** The exception a request is answered with, if any. *)
Definition raised (env : Env) (r : Request) (w : World) : option exn :=
  match r with
  | GET_root => raised_by (read_root w)
  | GET_drug_info q => raised_by (drug_info env q w)
  | GET_test => raised_by (test_database env w)
  | POST_auth_signup p => raised_by (signup env p w)
  | POST_auth_login p => raised_by (login env p w)
  | POST_auth_logout a => raised_by (logout a w)
  | POST_auth_forgot p => raised_by (forgot env p w)
  | POST_auth_reset p => raised_by (reset env p w)
  | GET_me a => raised_by (Depends env a me w)
  | PUT_me_settings s a => raised_by (Depends env a (update_settings s) w)
  | GET_medications a => raised_by (Depends env a list_meds w)
  | POST_medications m a => raised_by (Depends env a (create_med env m) w)
  | PUT_medications i m a => raised_by (Depends env a (update_med env i m) w)
  | DELETE_medications i a => raised_by (Depends env a (delete_med i) w)
  | POST_medications_taken i a => raised_by (Depends env a (mark_taken env i) w)
  | POST_medications_snooze i a => raised_by (Depends env a (snooze env i) w)
  end.

(** A property of the store, when there is one. *)
Definition on_db (Q : Database → Prop) (w : World) : Prop :=
  ∀ d, db w = Some d → Q d.

Definition db_emails_unique (d : Database) : Prop :=
  ∀ i j u v, db_user d !! i = Some u → db_user d !! j = Some v →
             User.email u = User.email v → i = j.

(** Splits a handler run into its cases. *)
Ltac run_cases := repeat (case_match; simpl in *; simplify_eq).

Definition db_times_uppercase (env : Env) (d : Database) : Prop :=
  ∀ id m, db_medication d !! id = Some m →
          ∃ s, Medication.time_12h m = str_upper env s.

(** The medication [id], if stored, has this owner and creation time. *)
Definition db_owner_if_stored (id : N) (owner : string) (created : datetime)
    (d : Database) : Prop :=
  ∀ m, db_medication d !! id = Some m →
       Medication.user_id m = owner ∧ Medication.created_at m = created.

(** The medication [id] is stored, with this owner and creation time. *)
Definition db_owner_stored (id : N) (owner : string) (created : datetime)
    (d : Database) : Prop :=
  ∃ m, db_medication d !! id = Some m
       ∧ Medication.user_id m = owner ∧ Medication.created_at m = created.

(** From [w] to [w'] no user and no session was written, and no medication
    other than the one [med_id] names. *)
Definition only_medication (med_id : string) (w w' : World) : Prop :=
  (∀ id, user_of w' id = user_of w id)
  ∧ (∀ sid, session_of w' sid = session_of w sid)
  ∧ (∀ id, Bson.ObjectId med_id ≠ Some (Bson.Id id) →
           medication_of w' id = medication_of w id).

(** The exceptions of a broken handler, as opposed to the answers it
    raises on purpose and to [InvalidId]. *)
Definition crash (e : option exn) : Prop :=
  e = Some IndexError ∨ e = Some TypeError.

(** The routes whose handler or dependency calls [require_db]: all but
    [GET /], [GET /drug-info] and [GET /test]. *)
Definition consults_db (r : Request) : bool :=
  match r with
  | GET_root | GET_drug_info _ | GET_test => false
  | _ => true
  end.

(** The world after Alice signed up on an empty store and created a
    medication with the token the signup answered. *)
Definition signed_up_world : World :=
  serve Example.ticking
        (POST_auth_signup (SignupIn.mk "Alice" "a@x.com" "pw1"))
        (mkWorld (Some (mkDatabase ∅ ∅ ∅)) 0 0).

Definition one_medication_world : World :=
  serve Example.ticking
        (POST_medications Example.hourly (Some ("Bearer tok" +:+ Bson.str 0)))
        signed_up_world.

(** ** Lemmas on collections *)

Lemma list_find_pointwise {K : Type} (f g : K → bool) (l : list K) :
  (∀ x, f x = g x) → List.find f l = List.find g l.
Proof.
  intros Hfg. induction l as [|x l IH]; simpl; [done|].
  rewrite Hfg. destruct (g x); [done | apply IH].
Qed.

Section CollectionLemmas.
Context {A : Type}.
Implicit Types (P : A → bool) (c : gmap N A).

Lemma find_one_Some P c k d :
  find_one P c = Some (k, d) → c !! k = Some d ∧ P d = true.
Proof.
  unfold find_one. intros H.
  destruct (List.find _ _) as [k'|] eqn:Hfind; [|done].
  apply find_some in Hfind as [_ Hp].
  destruct (c !! k') as [d'|] eqn:Hk; [|done].
  by simplify_eq.
Qed.

Lemma find_one_None P c k d :
  find_one P c = None → c !! k = Some d → P d = false.
Proof.
  unfold find_one. intros H Hk.
  destruct (List.find _ _) as [k'|] eqn:Hfind.
  - apply find_some in Hfind as [_ Hp].
    destruct (c !! k'); done.
  - assert (Hin : In k (elements (dom c))).
    { apply list_elem_of_In, elem_of_elements, elem_of_dom. by eexists. }
    pose proof (find_none _ _ Hfind k Hin) as Hn. simpl in Hn.
    by rewrite Hk in Hn.
Qed.

Lemma find_one_is_Some P c k d :
  c !! k = Some d → P d = true → is_Some (find_one P c).
Proof.
  intros Hk Hp. destruct (find_one P c) eqn:E; [by eexists|].
  pose proof (find_one_None _ _ _ _ E Hk). congruence.
Qed.

(** An update that does not change what the filter looks at finds the same
    document again. *)
Lemma find_one_alter P (f : A → A) i c :
  (∀ d, P (f d) = P d) →
  find_one P (alter f i c) =
  match find_one P c with
  | Some (k, d) => Some (k, if decide (k = i) then f d else d)
  | None => None
  end.
Proof.
  intros Hf. unfold find_one. rewrite dom_alter_L.
  rewrite (list_find_pointwise _
             (λ k, match c !! k with Some d => P d | None => false end)); last first.
  { intros k. rewrite lookup_alter. case_decide.
    - subst. destruct (c !! k); simpl; [apply Hf | reflexivity].
    - reflexivity. }
  destruct (List.find _ _) as [k|]; [|done].
  destruct (decide (k = i)) as [->|Hne].
  - rewrite lookup_alter_eq. destruct (c !! i); simpl; [|done].
    by rewrite decide_True.
  - rewrite lookup_alter_ne by done. destruct (c !! k); [|done].
    by rewrite decide_False.
Qed.

Lemma find_by_id_Some P c id k d :
  find_by_id id P c = Some (k, d) ↔ k = id ∧ c !! id = Some d ∧ P d = true.
Proof.
  unfold find_by_id. destruct (c !! id) as [d'|]; [destruct (P d') eqn:E|];
    (split; [intros H | intros (-> & H & Hp)]); simplify_eq; auto; congruence.
Qed.

Lemma insert_one_fresh (d : A) c : c !! (insert_one d c).1 = None.
Proof.
  unfold insert_one; simpl. apply not_elem_of_dom, is_fresh.
Qed.

Lemma insert_one_lookup (d : A) c :
  (insert_one d c).2 !! (insert_one d c).1 = Some d.
Proof. unfold insert_one; simpl. apply lookup_insert_eq. Qed.

Lemma insert_one_old (d : A) c k x :
  c !! k = Some x → (insert_one d c).2 !! k = Some x.
Proof.
  intros Hk. unfold insert_one; simpl. rewrite lookup_insert_ne; [done|].
  intros <-. pose proof (insert_one_fresh d c) as Hf.
  unfold insert_one in Hf; simpl in Hf. congruence.
Qed.

End CollectionLemmas.

(** ** ObjectId and its string form *)

Lemma hex_digit_val_char d : (d < 16)%N → Bson.hex_digit_val (Bson.hex_char d) = Some d.
Proof.
  intros Hd. destruct d as [|p]; [reflexivity|].
  do 4 (destruct p as [p|p|]; try reflexivity; try lia).
Qed.

Lemma hex_render_length k n acc :
  String.length (Bson.hex_render k n acc) = (k + String.length acc)%nat.
Proof.
  revert n acc. induction k as [|k IH]; intros n acc; simpl; [done|].
  rewrite IH. simpl. lia.
Qed.

Lemma parse_hex_render k n s a :
  (n < 16 ^ N.of_nat k)%N →
  Bson.parse_hex (Bson.hex_render k n s) a
  = Bson.parse_hex s (a * 16 ^ N.of_nat k + n)%N.
Proof.
  revert n s a. induction k as [|k IH]; intros n s a Hn.
  - simpl in *. f_equal. lia.
  - rewrite Nat2N.inj_succ, N.pow_succ_r' in Hn.
    cbn [Bson.hex_render]. rewrite IH.
    2:{ apply N.Div0.div_lt_upper_bound. lia. }
    cbn [Bson.parse_hex].
    rewrite hex_digit_val_char by (apply N.mod_lt; lia).
    f_equal. rewrite Nat2N.inj_succ, N.pow_succ_r'.
    pose proof (N.div_mod n 16). lia.
Qed.

(** [ObjectId(str(oid)) == oid] for the twelve-byte identifiers. *)
Lemma ObjectId_str oid : (oid < 2 ^ 96)%N → Bson.ObjectId (Bson.str oid) = Some (Bson.Id oid).
Proof.
  intros Hoid. unfold Bson.ObjectId, Bson.str.
  rewrite hex_render_length. simpl String.length. simpl Nat.eqb.
  rewrite parse_hex_render; [simpl; do 2 f_equal; lia|].
  change (16 ^ N.of_nat 24)%N with (2 ^ 96)%N. exact Hoid.
Qed.

(** [bytes.fromhex] gives at most one byte for two characters, and exactly
    that many only when every character is a hexadecimal digit. *)
Lemma fromhex_length n s bytes :
  (String.length s ≤ n)%nat →
  Bson.fromhex s = Some bytes →
  (2 * length bytes ≤ String.length s)%nat
  ∧ ((2 * length bytes)%nat = String.length s →
     ∀ a, is_Some (Bson.parse_hex s a)).
Proof.
  revert s bytes. induction n as [|n IH]; intros s bytes Hn.
  - destruct s; simpl in *; [|lia]. intros [= <-]. simpl. by split; [lia | eexists].
  - destruct s as [|c s]; simpl; [intros [= <-]; simpl; by split; [lia | eexists]|].
    simpl in Hn. destruct (Bson.is_space c).
    + intros Hs. apply IH in Hs as [Hle _]; [|lia]. split; lia.
    + destruct (Bson.hex_digit_val c) as [h|]; [|done].
      destruct s as [|c' s]; [done|]. simpl in Hn.
      destruct (Bson.hex_digit_val c') as [l|] eqn:Hl; [|done].
      destruct (Bson.fromhex s) as [rest|] eqn:Hrest; [|done].
      intros [= <-]. apply IH in Hrest as [Hle Hall]; [|lia]. simpl.
      split; [lia|]. intros Heq a. rewrite Hl. apply Hall. lia.
Qed.

(** The [ObjectId] of a string that is not 24 hexadecimal digits has fewer
    than twelve bytes, if there is one. *)
Lemma ObjectId_Short s bytes :
  Bson.ObjectId s = Some (Bson.Short bytes) → (length bytes < 12)%nat.
Proof.
  unfold Bson.ObjectId.
  destruct (Nat.eqb_spec (String.length s) 24) as [Hlen|]; [|done].
  destruct (Bson.parse_hex s 0) as [n|] eqn:Hparse; [done|].
  destruct (Bson.fromhex s) as [bs|] eqn:Hhex; [|done]. intros [= <-].
  destruct (fromhex_length _ _ _ (le_n _) Hhex) as [Hle Hall].
  destruct (decide ((2 * length bs)%nat = String.length s)) as [Heq|Hne]; [|lia].
  destruct (Hall Heq 0%N) as [? ?]. congruence.
Qed.

(** ** The routes that do not look at the store *)

Lemma serve_without_store env r w : consults_db r = false → serve env r w = w.
Proof.
  destruct r; try done; intros _; simpl.
  - unfold drug_info. by repeat case_match.
  - unfold test_database. by repeat case_match.
Qed.

(** ** Letter case *)

Lemma upper_lower_char c : PyStr.ascii_upper_char (PyStr.lower_char c) = PyStr.ascii_upper_char c.
Proof. destruct c as [[] [] [] [] [] [] [] []]; reflexivity. Qed.

Lemma upper_lower s : PyStr.ascii_upper (PyStr.lower s) = PyStr.ascii_upper s.
Proof.
  induction s as [|c s IH]; simpl; [done|].
  by rewrite upper_lower_char, IH.
Qed.

Lemma upper_idempotent_char c : PyStr.ascii_upper_char (PyStr.ascii_upper_char c) = PyStr.ascii_upper_char c.
Proof. destruct c as [[] [] [] [] [] [] [] []]; reflexivity. Qed.

Lemma upper_idempotent s :
  PyStr.ascii_upper (PyStr.ascii_upper s) = PyStr.ascii_upper s.
Proof.
  induction s as [|c s IH]; simpl; [done|].
  by rewrite upper_idempotent_char, IH.
Qed.

Lemma ascii_upper_length s :
  String.length (PyStr.ascii_upper s) = String.length s.
Proof. induction s as [|c s IH]; simpl; [done | by rewrite IH]. Qed.

Lemma ascii_upper_get s i c :
  String.get i s = Some c →
  String.get i (PyStr.ascii_upper s)
  = Some (if ((97 <=? N_of_ascii c) && (N_of_ascii c <=? 122))%N
          then ascii_of_N (N_of_ascii c - 32) else c).
Proof.
  revert i. induction s as [|c0 s IH]; intros [|i]; simpl; try done.
  - by intros [= <-].
  - apply IH.
Qed.

(** ** The medication handlers *)

Section MedicationHandlers.
Context (env : Env).
Implicit Types (w : World) (user : Principal.t) (m : Medication.t).

Lemma owned_by_false user m :
  Principal._id user ≠ Medication.user_id m → owned_by user m = false.
Proof. intros Hne. unfold owned_by. apply String.eqb_neq. congruence. Qed.

Lemma medication_of_Some w oid m :
  medication_of w oid = Some m →
  ∃ d, w = mkWorld (Some d) (ticks w) (draws w) ∧ db_medication d !! oid = Some m.
Proof.
  destruct w as [[d|] t dr]; unfold medication_of; simpl; [|done].
  intros Hm. by exists d.
Qed.

(** What [update_med] does on a medication the caller owns. *)
Lemma update_med_owned med_id med user d t dr oid m :
  Bson.ObjectId med_id = Some (Bson.Id oid) →
  db_medication d !! oid = Some m →
  owned_by user m = true →
  let updates :=
    med_set_fields (MedicationIn.name med) (MedicationIn.dosage med)
                   (str_upper env (MedicationIn.time_12h med))
                   (MedicationIn.frequency med) (MedicationIn.notes med)
                   (clock env t) in
  update_med env med_id med user (mkWorld (Some d) t dr) =
  (inr (medication_out oid (updates m)),
   mkWorld (Some (with_medication (alter updates oid) d)) (S t) dr).
Proof.
  intros Hoid Hm Hown. run_handler. rewrite Hoid. simpl.
  unfold find_by_id. by rewrite Hm, Hown.
Qed.

Lemma mark_taken_owned med_id user d t dr oid m :
  Bson.ObjectId med_id = Some (Bson.Id oid) →
  db_medication d !! oid = Some m →
  owned_by user m = true →
  mark_taken env med_id user (mkWorld (Some d) t dr) =
  (inr (),
   mkWorld (Some (with_medication
                    (alter (med_set_taken (clock env t) (clock env (S t))) oid) d))
           (S (S t)) dr).
Proof.
  intros Hoid Hm Hown. run_handler. rewrite Hoid. simpl.
  unfold find_by_id. by rewrite Hm, Hown.
Qed.

Lemma snooze_owned med_id user d t dr oid m :
  Bson.ObjectId med_id = Some (Bson.Id oid) →
  db_medication d !! oid = Some m →
  owned_by user m = true →
  snooze env med_id user (mkWorld (Some d) t dr) =
  (inr (clock env (S (S t)) + mk_timedelta 0 0 10),
   mkWorld (Some (with_medication
                    (alter (med_set_snooze (clock env t + mk_timedelta 0 0 10)
                                           (clock env (S t))) oid) d))
           (S (S (S t))) dr).
Proof.
  intros Hoid Hm Hown. run_handler. rewrite Hoid. simpl.
  unfold find_by_id. by rewrite Hm, Hown.
Qed.

(** What [create_med] does: it never rejects. *)
Lemma create_med_run med user d t dr :
  let doc :=
    Medication.mk (Principal._id user) (MedicationIn.name med)
                  (MedicationIn.dosage med)
                  (str_upper env (MedicationIn.time_12h med))
                  (MedicationIn.frequency med) (MedicationIn.notes med)
                  None None (clock env t) (clock env (S t)) in
  let id := fresh (dom (db_medication d)) in
  create_med env med user (mkWorld (Some d) t dr) =
  (inr (medication_out id doc),
   mkWorld (Some (with_medication (λ _, <[id := doc]> (db_medication d)) d))
           (S (S t)) dr).
Proof. reflexivity. Qed.

(** C3 (as amended). A medication owned by one user is out of reach of any
    other authenticated user: [update_med], [mark_taken] and [snooze] on its
    id answer 404 "Not found", [delete_med] answers ok without deleting, and
    in all four cases the world, hence the medication, is unchanged. *)
Theorem foreign_medication_untouched med_id med user w oid m :
  Bson.ObjectId med_id = Some (Bson.Id oid) →
  medication_of w oid = Some m →
  Principal._id user ≠ Medication.user_id m →
  update_med env med_id med user w = (inl (HTTPException 404 "Not found"), w)
  ∧ mark_taken env med_id user w = (inl (HTTPException 404 "Not found"), w)
  ∧ snooze env med_id user w = (inl (HTTPException 404 "Not found"), w)
  ∧ delete_med med_id user w = (inr (), w).
Proof.
  intros Hoid Hm Hne.
  apply medication_of_Some in Hm as (d & -> & Hm). simpl.
  apply owned_by_false in Hne.
  repeat split; run_handler; rewrite Hoid; simpl;
    unfold with_medication, delete_by_id, find_by_id; rewrite Hm, Hne; try done.
  by destruct d.
Qed.

(** C5. On a medication the principal owns, [mark_taken] succeeds, sets
    [last_taken_at] to the clock reading it takes and sets
    [snooze_until_utc] to [None], whatever the two fields held before. *)
Theorem mark_taken_clears_snooze med_id user w oid m :
  Bson.ObjectId med_id = Some (Bson.Id oid) →
  medication_of w oid = Some m →
  Medication.user_id m = Principal._id user →
  fst (mark_taken env med_id user w) = inr ()
  ∧ ∃ m', medication_of (snd (mark_taken env med_id user w)) oid = Some m'
          ∧ Medication.last_taken_at m' = Some (clock env (ticks w))
          ∧ Medication.snooze_until_utc m' = None.
Proof.
  intros Hoid Hm Hown.
  apply medication_of_Some in Hm as (d & -> & Hm). simpl.
  erewrite mark_taken_owned by (try done; by apply String.eqb_eq).
  split; [done|]. unfold medication_of; simpl.
  rewrite lookup_alter_eq, Hm. by eexists.
Qed.

(** C6. On a medication the principal owns, [snooze] succeeds, sets
    [snooze_until_utc] to the clock reading it takes plus 10 minutes and
    leaves [last_taken_at] as it was, whatever the two fields held before. *)
Theorem snooze_sets_ten_minutes med_id user w oid m :
  Bson.ObjectId med_id = Some (Bson.Id oid) →
  medication_of w oid = Some m →
  Medication.user_id m = Principal._id user →
  (∃ answered, fst (snooze env med_id user w) = inr answered)
  ∧ ∃ m', medication_of (snd (snooze env med_id user w)) oid = Some m'
          ∧ Medication.snooze_until_utc m'
            = Some (clock env (ticks w) + 10 * microseconds_per_minute)
          ∧ Medication.last_taken_at m' = Medication.last_taken_at m.
Proof.
  intros Hoid Hm Hown.
  apply medication_of_Some in Hm as (d & -> & Hm). simpl.
  erewrite snooze_owned by (try done; by apply String.eqb_eq).
  split; [by eexists|]. unfold medication_of; simpl.
  rewrite lookup_alter_eq, Hm. by eexists.
Qed.

(** C7. On a medication the principal owns, [update_med] succeeds and
    replaces [name], [dosage], [time_12h] (by the uppercased input),
    [frequency] and [notes] by those of the request, and [last_taken_at] and
    [snooze_until_utc] after the update are what they were before. *)
Theorem update_med_frame med_id med user w oid m :
  Bson.ObjectId med_id = Some (Bson.Id oid) →
  medication_of w oid = Some m →
  Medication.user_id m = Principal._id user →
  ∃ out m',
    fst (update_med env med_id med user w) = inr out
    ∧ medication_of (snd (update_med env med_id med user w)) oid = Some m'
    ∧ Medication.name m' = MedicationIn.name med
    ∧ Medication.dosage m' = MedicationIn.dosage med
    ∧ Medication.time_12h m' = str_upper env (MedicationIn.time_12h med)
    ∧ Medication.frequency m' = MedicationIn.frequency med
    ∧ Medication.notes m' = MedicationIn.notes med
    ∧ Medication.last_taken_at m' = Medication.last_taken_at m
    ∧ Medication.snooze_until_utc m' = Medication.snooze_until_utc m.
Proof.
  intros Hoid Hm Hown.
  apply medication_of_Some in Hm as (d & -> & Hm). simpl.
  erewrite update_med_owned by (try done; by apply String.eqb_eq).
  do 2 eexists. split; [done|]. unfold medication_of; simpl.
  rewrite lookup_alter_eq, Hm. simpl. by repeat split.
Qed.

(** C9. [create_med] and [update_med] store what [str.upper()] makes of the
    [time_12h] of the request and answer with it. On an ASCII [time_12h]
    that is the input with the letters a to z replaced by A to Z, all else
    in place: "8:05 pm" is stored as "8:05 PM", and two ASCII inputs that
    differ only in letter case are stored alike. *)
Theorem time_12h_uppercased :
  (∀ med user w, is_Some (db w) →
     ∃ out id m',
       fst (create_med env med user w) = inr out
       ∧ MedicationOut.id out = Bson.str id
       ∧ medication_of w id = None
       ∧ medication_of (snd (create_med env med user w)) id = Some m'
       ∧ Medication.time_12h m' = str_upper env (MedicationIn.time_12h med)
       ∧ MedicationOut.time_12h out = str_upper env (MedicationIn.time_12h med))
  ∧ (∀ med_id med user w oid m,
       Bson.ObjectId med_id = Some (Bson.Id oid) →
       medication_of w oid = Some m →
       Medication.user_id m = Principal._id user →
       ∃ out m',
         fst (update_med env med_id med user w) = inr out
         ∧ medication_of (snd (update_med env med_id med user w)) oid = Some m'
         ∧ Medication.time_12h m' = str_upper env (MedicationIn.time_12h med)
         ∧ MedicationOut.time_12h out = str_upper env (MedicationIn.time_12h med))
  ∧ (upper_on_ascii env →
     str_upper env "8:05 pm" = "8:05 PM"
     ∧ (∀ s, PyStr.is_ascii s = true →
          String.length (str_upper env s) = String.length s
          ∧ ∀ i c, String.get i s = Some c →
              String.get i (str_upper env s)
              = Some (if ((97 <=? N_of_ascii c) && (N_of_ascii c <=? 122))%N
                      then ascii_of_N (N_of_ascii c - 32) else c))
     ∧ (∀ a b, PyStr.is_ascii a = true → PyStr.is_ascii b = true →
          PyStr.lower a = PyStr.lower b → str_upper env a = str_upper env b)).
Proof.
  split; [|split].
  - intros med user [odb t dr] [d Hd]. simpl in Hd. subst odb.
    rewrite create_med_run. simpl.
    eexists _, (fresh (dom (db_medication d))), _.
    split; [done|]. split; [done|]. unfold medication_of; simpl.
    split; [apply not_elem_of_dom, is_fresh|].
    split; [apply lookup_insert_eq|]. done.
  - intros med_id med user w oid m Hoid Hm Hown.
    apply medication_of_Some in Hm as (d & -> & Hm). simpl.
    erewrite update_med_owned by (try done; by apply String.eqb_eq).
    do 2 eexists. split; [done|]. unfold medication_of; simpl.
    rewrite lookup_alter_eq, Hm. by simpl.
  - intros Hascii. split; [by rewrite Hascii|]. split.
    + intros s Hs. rewrite (Hascii s Hs).
      split; [apply ascii_upper_length | apply ascii_upper_get].
    + intros a b Ha Hb Hab. rewrite (Hascii a Ha), (Hascii b Hb).
      by rewrite <- (upper_lower a), Hab, upper_lower.
Qed.

End MedicationHandlers.

(** ** Session validation *)

Section SessionValidation.
Context (env : Env).

Lemma bearer_header token :
  is_bearer (Some ("Bearer " +:+ token)) = true
  ∧ PyStr.split1 " " ("Bearer " +:+ token) !! 1%nat = Some token.
Proof. split; reflexivity. Qed.

Lemma session_by_token_Some w token sid sess :
  session_by_token w token = Some (sid, sess) →
  ∃ d, w = mkWorld (Some d) (ticks w) (draws w)
       ∧ find_one (λ s, String.eqb (Session.token s) token) (db_session d)
         = Some (sid, sess).
Proof.
  destruct w as [[d|] t dr]; unfold session_by_token; simpl; [|done].
  intros H. by exists d.
Qed.

(** What [get_current_user] does once the header names a stored session
    whose [user_id] is well formed: the user is looked up first, the expiry
    is looked at only when the user exists. *)
Lemma get_current_user_stored a token d t dr sid sess uid :
  is_bearer (Some a) = true →
  PyStr.split1 " " a !! 1%nat = Some token →
  find_one (λ s, String.eqb (Session.token s) token) (db_session d)
    = Some (sid, sess) →
  Bson.ObjectId (Session.user_id sess) = Some (Bson.Id uid) →
  get_current_user env (Some a) (mkWorld (Some d) t dr) =
  match db_user d !! uid with
  | None => (inl (HTTPException 401 "User not found"), mkWorld (Some d) t dr)
  | Some u =>
      let principal :=
        Principal.mk (Bson.str uid) (User.name u) (User.email u)
                     (default true (User.notifications_enabled u)) in
      match Session.expires_at sess with
      | None => (inr principal, mkWorld (Some d) t dr)
      | Some e =>
          if e <? clock env t
          then (inl (HTTPException 401 "Session expired"),
                mkWorld (Some (with_session (delete sid) d)) (S t) dr)
          else (inr principal, mkWorld (Some d) (S t) dr)
      end
  end.
Proof.
  intros Hb Hsplit Hfind Hoid. unfold get_current_user. rewrite Hb.
  run_handler. rewrite Hsplit. simpl. rewrite Hfind. simpl.
  rewrite Hoid. simpl. unfold find_by_id.
  destruct (db_user d !! uid) as [u|]; simpl; [|done].
  destruct (Session.expires_at sess) as [e|]; simpl; [|done].
  destruct (e <? clock env t); simpl; [|done].
  apply find_one_Some in Hfind as [Hsid _].
  unfold with_session, delete_by_id, find_by_id. by rewrite Hsid.
Qed.

(** C1 (as amended). For a stored session, validation answers 401 once the
    clock reading is after [expires_at]. The owning user is resolved first:
    when the user document exists the expired session is answered
    "Session expired" and deleted by that check, and a session read at
    [expires_at] or before is accepted; when the user document is gone the
    answer is "User not found" and the world, the session included, is left
    as it was. *)
Theorem get_current_user_expiry a token w sid sess uid e :
  is_bearer (Some a) = true →
  PyStr.split1 " " a !! 1%nat = Some token →
  session_by_token w token = Some (sid, sess) →
  Bson.ObjectId (Session.user_id sess) = Some (Bson.Id uid) →
  Session.expires_at sess = Some e →
  let now := clock env (ticks w) in
  let r := get_current_user env (Some a) w in
  (e < now → unauthenticated (fst r))
  ∧ (is_Some (user_of w uid) → e < now →
       fst r = inl (HTTPException 401 "Session expired")
       ∧ session_of (snd r) sid = None)
  ∧ (is_Some (user_of w uid) → now ≤ e → ∃ principal, fst r = inr principal)
  ∧ (user_of w uid = None →
       r = (inl (HTTPException 401 "User not found"), w)).
Proof.
  intros Hb Hsplit Hsess Hoid Hexp.
  apply session_by_token_Some in Hsess as (d & -> & Hfind). simpl.
  rewrite (get_current_user_stored _ _ _ _ _ _ _ _ Hb Hsplit Hfind Hoid), Hexp.
  unfold user_of, session_of, unauthenticated; simpl.
  destruct (db_user d !! uid) as [u|]; simpl.
  - destruct (Z.ltb_spec e (clock env (ticks w))); simpl.
    + split; [intros _; eauto|].
      split; [intros _ _; split; [done | apply lookup_delete_eq]|].
      split; [intros _ ?; lia | done].
    + split; [intros ?; lia|].
      split; [intros _ ?; lia|].
      split; [eauto | done].
  - split; [eauto|].
    split; [by intros [? ?]|].
    split; [by intros [? ?] | done].
Qed.

End SessionValidation.

(** ** Signup, login and the password reset flow *)

Section AuthRoutes.
Context (env : Env).

Lemma opt_str_ne_false o s : opt_str_ne o s = false ↔ o = Some s.
Proof.
  destruct o as [t|]; simpl; [|done].
  rewrite negb_false_iff, String.eqb_eq. split; congruence.
Qed.

Lemma user_by_email_world d t dr email :
  user_by_email (mkWorld (Some d) t dr) email
  = find_one (λ u, String.eqb (User.email u) email) (db_user d).
Proof. reflexivity. Qed.

(** What [signup] does for an email no user has. *)
Lemma signup_run p d t dr :
  find_one (λ u, String.eqb (User.email u) (SignupIn.email p)) (db_user d) = None →
  let user_doc :=
    User.mk (SignupIn.name p) (SignupIn.email p)
            (hash_password env (SignupIn.password p)) (Some true) None None
            (clock env t) (clock env (S t)) in
  let user_id := fresh (dom (db_user d)) in
  let token := token_urlsafe env dr 32 in
  let sess :=
    Session.mk (Bson.str user_id) token (clock env (S (S t)))
               (Some (clock env (S (S (S t))) + mk_timedelta 7 0 0)) in
  signup env p (mkWorld (Some d) t dr) =
  (inr (TokenOut.mk token (SignupIn.name p) (SignupIn.email p) true),
   mkWorld (Some (mkDatabase (<[user_id := user_doc]> (db_user d))
                             (<[fresh (dom (db_session d)) := sess]> (db_session d))
                             (db_medication d)))
           (S (S (S (S t)))) (S dr)).
Proof. intros Hnone. run_handler. by rewrite Hnone. Qed.

Lemma signup_duplicate p d t dr x :
  find_one (λ u, String.eqb (User.email u) (SignupIn.email p)) (db_user d) = Some x →
  signup env p (mkWorld (Some d) t dr) =
  (inl (HTTPException 400 "Email already registered"), mkWorld (Some d) t dr).
Proof. intros Hsome. run_handler. by rewrite Hsome. Qed.

(** What [login] does: one answer for an unknown email and a wrong password,
    a fresh session otherwise. *)
Lemma login_run p d t dr :
  login env p (mkWorld (Some d) t dr) =
  match find_one (λ u, String.eqb (User.email u) (LoginIn.email p)) (db_user d) with
  | None => (inl (HTTPException 401 "Invalid credentials"), mkWorld (Some d) t dr)
  | Some (user_id, user) =>
      if String.eqb (User.password_hash user) (hash_password env (LoginIn.password p))
      then
        let token := token_urlsafe env dr 32 in
        let sess :=
          Session.mk (Bson.str user_id) token (clock env t)
                     (Some (clock env (S t) + mk_timedelta 7 0 0)) in
        (inr (TokenOut.mk token (User.name user) (User.email user)
                          (default true (User.notifications_enabled user))),
         mkWorld (Some (with_session
                          (λ _, <[fresh (dom (db_session d)) := sess]> (db_session d)) d))
                 (S (S t)) (S dr))
      else (inl (HTTPException 401 "Invalid credentials"), mkWorld (Some d) t dr)
  end.
Proof.
  run_handler.
  destruct (find_one _ _) as [[user_id user]|]; simpl; [|done].
  by destruct (String.eqb _ _).
Qed.

(** What [forgot] does. *)
Lemma forgot_run p d t dr :
  forgot env p (mkWorld (Some d) t dr) =
  match find_one (λ u, String.eqb (User.email u) (ForgotIn.email p)) (db_user d) with
  | None => (inr None, mkWorld (Some d) t dr)
  | Some (user_id, _) =>
      let reset_token := token_urlsafe env dr 8 in
      (inr (Some reset_token),
       mkWorld (Some (with_user
                        (alter (user_set_reset reset_token
                                  (clock env t + mk_timedelta 0 1 0)) user_id) d))
               (S t) (S dr))
  end.
Proof.
  run_handler. by destruct (find_one _ _) as [[user_id user]|].
Qed.

(** X13. [forgot] for a known email stores the token it answers together
    with an expiry one hour after the clock reading, over whatever was
    stored. *)
Lemma forgot_sets_both p w id u :
  user_by_email w (ForgotIn.email p) = Some (id, u) →
  ∃ tok u',
    fst (forgot env p w) = inr (Some tok)
    ∧ user_of (snd (forgot env p w)) id = Some u'
    ∧ User.reset_token u' = Some tok
    ∧ User.reset_token_expires u'
      = Some (clock env (ticks w) + 60 * microseconds_per_minute).
Proof.
  destruct w as [[d|] t dr]; [|done]. rewrite user_by_email_world. intros Hfind.
  rewrite forgot_run, Hfind. simpl.
  apply find_one_Some in Hfind as [Hu _].
  eexists _, _. split; [done|]. unfold user_of; simpl.
  rewrite lookup_alter_eq, Hu. by simpl.
Qed.

(** What [reset] does. The [TypeError] is the comparison of a missing
    [reset_token_expires] with a [datetime]. *)
Lemma reset_run p d t dr :
  let refused := inl (HTTPException 400 "Invalid or expired token") in
  reset env p (mkWorld (Some d) t dr) =
  match find_one (λ u, String.eqb (User.email u) (ResetIn.email p)) (db_user d) with
  | None => (refused, mkWorld (Some d) t dr)
  | Some (user_id, user) =>
      if opt_str_ne (User.reset_token user) (ResetIn.reset_token p)
      then (refused, mkWorld (Some d) t dr)
      else
        match User.reset_token_expires user with
        | None => (inl TypeError, mkWorld (Some d) (S t) dr)
        | Some expires =>
            if expires <? clock env t
            then (refused, mkWorld (Some d) (S t) dr)
            else
              (inr (),
               mkWorld (Some (with_user
                                (alter (user_set_password_unset_reset
                                          (hash_password env (ResetIn.new_password p)))
                                       user_id) d))
                       (S t) dr)
        end
  end.
Proof.
  run_handler.
  destruct (find_one _ _) as [[user_id user]|]; simpl; [|done].
  destruct (opt_str_ne _ _); simpl; [done|].
  destruct (User.reset_token_expires user) as [expires|]; simpl; [|done].
  by destruct (expires <? clock env t).
Qed.

(** C2 (as amended). [reset] succeeds exactly when a user with that email is
    found, the supplied token equals the stored [reset_token] and the clock
    reading is not after [reset_token_expires]; it answers 400 "Invalid or
    expired token" when the email is unknown, when the token differs and when
    the reading is after the expiry. On success the user has the new password
    digest and neither reset field, and a further [reset] for that email,
    with the same token or any other, answers 400. *)
Theorem reset_succeeds_iff p w :
  is_Some (db w) →
  let now := clock env (ticks w) in
  let r := reset env p w in
  let refused : exn + () := inl (HTTPException 400 "Invalid or expired token") in
  (fst r = inr () ↔
     ∃ id u e, user_by_email w (ResetIn.email p) = Some (id, u)
               ∧ User.reset_token u = Some (ResetIn.reset_token p)
               ∧ User.reset_token_expires u = Some e
               ∧ now ≤ e)
  ∧ (user_by_email w (ResetIn.email p) = None → fst r = refused)
  ∧ (∀ id u, user_by_email w (ResetIn.email p) = Some (id, u) →
             User.reset_token u ≠ Some (ResetIn.reset_token p) → fst r = refused)
  ∧ (∀ id u e, user_by_email w (ResetIn.email p) = Some (id, u) →
               User.reset_token_expires u = Some e → e < now → fst r = refused)
  ∧ (fst r = inr () →
       ∃ id u', user_by_email (snd r) (ResetIn.email p) = Some (id, u')
                ∧ User.password_hash u' = hash_password env (ResetIn.new_password p)
                ∧ User.reset_token u' = None
                ∧ User.reset_token_expires u' = None
                ∧ ∀ p', ResetIn.email p' = ResetIn.email p →
                        fst (reset env p' (snd r)) = refused).
Proof.
  intros [d Hd]. destruct w as [odb t dr]. simpl in Hd. subst odb. simpl.
  rewrite reset_run, user_by_email_world.
  destruct (find_one _ (db_user d)) as [[id u]|] eqn:Hfind; simpl.
  2:{ split; [split; [done | by intros (? & ? & ? & ? & _)]|].
      repeat split; done. }
  destruct (opt_str_ne _ _) eqn:Hne; simpl.
  { assert (User.reset_token u ≠ Some (ResetIn.reset_token p)) as Hdiff.
    { intros Heq. apply opt_str_ne_false in Heq. congruence. }
    split; [split; [done | intros (? & ? & ? & ? & ? & _); congruence]|].
    by repeat split. }
  apply opt_str_ne_false in Hne.
  destruct (User.reset_token_expires u) as [e|] eqn:Hexp; simpl.
  2:{ split; [split; [done | intros (? & ? & ? & ? & ? & ? & _); congruence]|].
      split; [done|].
      split; [intros ? ? [= <- <-]; congruence|].
      split; [intros ? ? ? [= <- <-]; congruence | done]. }
  destruct (Z.ltb_spec e (clock env t)); simpl.
  { split; [split; [done | intros (? & ? & e' & ? & ? & ? & ?);
                       assert (e' = e) by congruence; lia]|].
    repeat split; done. }
  split; [split; [intros _; by exists id, u, e | done]|].
  split; [done|].
  split; [intros ? ? [= <- <-]; congruence|].
  split; [intros ? ? e' [= <- <-] He'; assert (e' = e) by congruence; lia|].
  intros _. rewrite user_by_email_world. simpl.
  rewrite find_one_alter, Hfind by done.
  rewrite decide_True by done.
  eexists _, _. split; [done|]. repeat split.
  intros p' Hp'. rewrite reset_run. simpl.
  rewrite Hp', find_one_alter, Hfind by done.
  by rewrite decide_True.
Qed.

(** C8 (as amended). A session created by [signup] or [login] has
    [created_at] equal to one clock reading and [expires_at] equal to the
    next clock reading plus 7 days; so [expires_at] is [created_at] plus
    7 days when the two readings coincide. *)
Theorem issued_session_expiry :
  (∀ p w, is_Some (db w) → user_by_email w (SignupIn.email p) = None →
     ∃ out sid sess,
       fst (signup env p w) = inr out
       ∧ session_of w sid = None
       ∧ session_of (snd (signup env p w)) sid = Some sess
       ∧ Session.token sess = TokenOut.token out
       ∧ Session.created_at sess = clock env (S (S (ticks w)))
       ∧ Session.expires_at sess
         = Some (clock env (S (S (S (ticks w)))) + mk_timedelta 7 0 0)
       ∧ (clock env (S (S (S (ticks w)))) = clock env (S (S (ticks w))) →
          Session.expires_at sess
          = Some (Session.created_at sess + mk_timedelta 7 0 0)))
  ∧ (∀ p w id u,
       user_by_email w (LoginIn.email p) = Some (id, u) →
       User.password_hash u = hash_password env (LoginIn.password p) →
       ∃ out sid sess,
         fst (login env p w) = inr out
         ∧ session_of w sid = None
         ∧ session_of (snd (login env p w)) sid = Some sess
         ∧ Session.token sess = TokenOut.token out
         ∧ Session.created_at sess = clock env (ticks w)
         ∧ Session.expires_at sess
           = Some (clock env (S (ticks w)) + mk_timedelta 7 0 0)
         ∧ (clock env (S (ticks w)) = clock env (ticks w) →
            Session.expires_at sess
            = Some (Session.created_at sess + mk_timedelta 7 0 0))).
Proof.
  split.
  - intros p [odb t dr] [d Hd] Hnone. simpl in Hd. subst odb.
    rewrite user_by_email_world in Hnone.
    rewrite (signup_run _ _ _ _ Hnone). simpl.
    eexists _, (fresh (dom (db_session d))), _.
    split; [done|]. unfold session_of; simpl.
    split; [apply not_elem_of_dom, is_fresh|].
    split; [apply lookup_insert_eq|]. simpl.
    repeat split. by intros ->.
  - intros p [[d|] t dr] id u Hfind Hpw; [|done].
    rewrite user_by_email_world in Hfind.
    rewrite login_run, Hfind. simpl.
    apply String.eqb_eq in Hpw. rewrite Hpw. simpl.
    eexists _, (fresh (dom (db_session d))), _.
    split; [done|]. unfold session_of; simpl.
    split; [apply not_elem_of_dom, is_fresh|].
    split; [apply lookup_insert_eq|]. simpl.
    repeat split. by intros ->.
Qed.

End AuthRoutes.

(** ** The reset fields come in pairs *)

Section ResetPairing.
Context (env : Env).

Lemma reset_paired_world d t dr :
  reset_paired (mkWorld (Some d) t dr) ↔ users_paired d.
Proof. reflexivity. Qed.

Lemma reset_paired_unconfigured t dr : reset_paired (mkWorld None t dr).
Proof. intros id u Hu. discriminate Hu. Qed.

Lemma preserves_ret {A} (P : World → Prop) (a : A) : preserves P (mret a).
Proof. by intros w Hw. Qed.

Lemma preserves_raise {A} (P : World → Prop) (e : exn) : preserves P (@raise A e).
Proof. by intros w Hw. Qed.

Lemma preserves_bind {A B} (P : World → Prop) (c : M A) (k : A → M B) :
  preserves P c → (∀ a, preserves P (k a)) → preserves P (c ≫= k).
Proof.
  intros Hc Hk w Hw. unfold mbind, M_bind.
  specialize (Hc w Hw). destruct (c w) as [[e|a] w']; simpl in *; [done|].
  by apply Hk.
Qed.

Lemma preserves_require_db (P : World → Prop) : preserves P require_db.
Proof. intros w Hw. unfold require_db. by destruct (db w). Qed.

Lemma preserves_read_db (P : World → Prop) : preserves P read_db.
Proof. intros w Hw. unfold read_db. by destruct (db w). Qed.

Lemma preserves_ObjectId (P : World → Prop) s : preserves P (ObjectId s).
Proof. intros w Hw. unfold ObjectId. by destruct (Bson.ObjectId s). Qed.

Lemma preserves_bearer_token (P : World → Prop) a : preserves P (bearer_token a).
Proof. intros w Hw. unfold bearer_token. by destruct (_ !! _). Qed.

Lemma paired_utc_now : preserves reset_paired (utc_now env).
Proof. by intros [[d|] t dr] Hw. Qed.

Lemma paired_token_urlsafe n : preserves reset_paired (secrets_token_urlsafe env n).
Proof. by intros [[d|] t dr] Hw. Qed.

Lemma paired_modify_db f :
  (∀ d, users_paired d → users_paired (f d)) →
  preserves reset_paired (modify_db f).
Proof.
  intros Hf [[d|] t dr] Hw; [|done].
  unfold modify_db; simpl. apply reset_paired_world, Hf, Hw.
Qed.

Lemma paired_with_session f d : users_paired d → users_paired (with_session f d).
Proof. done. Qed.

Lemma paired_with_medication f d :
  users_paired d → users_paired (with_medication f d).
Proof. done. Qed.

Lemma paired_update_user id g d :
  (∀ u, reset_paired_user u → reset_paired_user (g u)) →
  users_paired d → users_paired (with_user (update_by_id id g) d).
Proof.
  intros Hg Hd k u. unfold with_user, update_by_id; simpl.
  destruct (decide (id = k)) as [->|Hne].
  - rewrite lookup_alter_eq. destruct (db_user d !! k) as [u0|] eqn:Hk; [|done].
    intros [= <-]. eapply Hg, Hd, Hk.
  - rewrite lookup_alter_ne by done. apply Hd.
Qed.

Lemma paired_update_user_oid o g d :
  (∀ u, reset_paired_user u → reset_paired_user (g u)) →
  users_paired d → users_paired (with_user (update_by_oid o g) d).
Proof.
  intros Hg Hd. destruct o as [id|binary]; [by apply paired_update_user|].
  by destruct d.
Qed.

Lemma paired_insert_user doc :
  reset_paired_user doc → preserves reset_paired (insert_user doc).
Proof.
  intros Hdoc [[d|] t dr] Hw; [|done]. run_handler.
  intros k u. unfold user_of; simpl.
  destruct (decide (fresh (dom (db_user d)) = k)) as [->|Hne].
  - rewrite lookup_insert_eq. by intros [= <-].
  - rewrite lookup_insert_ne by done. apply Hw.
Qed.

Lemma paired_insert_session doc : preserves reset_paired (insert_session doc).
Proof. by intros [[d|] t dr] Hw. Qed.

Lemma paired_insert_medication doc : preserves reset_paired (insert_medication doc).
Proof. by intros [[d|] t dr] Hw. Qed.

Lemma paired_get_user_by_email email :
  preserves reset_paired (get_user_by_email email).
Proof. by intros [[d|] t dr] Hw. Qed.

Lemma paired_user_set_reset tok exp u : reset_paired_user (user_set_reset tok exp u).
Proof. split; intros _; by eexists. Qed.

Lemma paired_user_unset_reset h u :
  reset_paired_user (user_set_password_unset_reset h u).
Proof. split; by intros [? ?]. Qed.

Lemma paired_user_set_notifications b u :
  reset_paired_user u → reset_paired_user (user_set_notifications b u).
Proof. done. Qed.

(** One step of a proof that a handler keeps the pairing. *)
Ltac paired_step :=
  first
    [ apply preserves_ret | apply preserves_raise
    | apply preserves_require_db | apply preserves_read_db
    | apply preserves_ObjectId | apply preserves_bearer_token
    | apply paired_utc_now | apply paired_token_urlsafe
    | apply paired_get_user_by_email
    | apply paired_insert_session | apply paired_insert_medication
    | apply paired_insert_user; by split; intros [? ?]
    | apply paired_modify_db; intros ? ?;
      first [ by apply paired_with_session
            | by apply paired_with_medication
            | first [apply paired_update_user | apply paired_update_user_oid];
              [intros ? ?|done];
              first [ apply paired_user_set_reset
                    | apply paired_user_unset_reset
                    | by apply paired_user_set_notifications ] ]
    | apply preserves_bind
    | match goal with |- ∀ _, _ => intros ? end
    | progress case_match ].

Lemma paired_get_current_user a : preserves reset_paired (get_current_user env a).
Proof. unfold get_current_user. repeat paired_step. Qed.

Lemma paired_Depends {A} a (handler : Principal.t → M A) :
  (∀ user, preserves reset_paired (handler user)) →
  preserves reset_paired (Depends env a handler).
Proof.
  intros Hh. unfold Depends. apply preserves_bind; [|done].
  apply paired_get_current_user.
Qed.

Lemma paired_signup p : preserves reset_paired (signup env p).
Proof. unfold signup. repeat paired_step. Qed.

Lemma paired_login p : preserves reset_paired (login env p).
Proof. unfold login. repeat paired_step. Qed.

Lemma paired_logout a : preserves reset_paired (logout a).
Proof. unfold logout. repeat paired_step. Qed.

Lemma paired_forgot p : preserves reset_paired (forgot env p).
Proof. unfold forgot. repeat paired_step. Qed.

Lemma paired_reset p : preserves reset_paired (reset env p).
Proof. unfold reset. repeat paired_step. Qed.

Lemma paired_update_settings s user :
  preserves reset_paired (update_settings s user).
Proof. unfold update_settings. repeat paired_step. Qed.

Lemma paired_list_meds user : preserves reset_paired (list_meds user).
Proof. unfold list_meds. repeat paired_step. Qed.

Lemma paired_create_med med user : preserves reset_paired (create_med env med user).
Proof. unfold create_med. repeat paired_step. Qed.

Lemma paired_update_med i med user :
  preserves reset_paired (update_med env i med user).
Proof. unfold update_med. repeat paired_step. Qed.

Lemma paired_delete_med i user : preserves reset_paired (delete_med i user).
Proof. unfold delete_med. repeat paired_step. Qed.

Lemma paired_mark_taken i user : preserves reset_paired (mark_taken env i user).
Proof. unfold mark_taken. repeat paired_step. Qed.

Lemma paired_snooze i user : preserves reset_paired (snooze env i user).
Proof. unfold snooze. repeat paired_step. Qed.

Lemma paired_serve r w : reset_paired w → reset_paired (serve env r w).
Proof.
  intros Hw. destruct r; try by rewrite serve_without_store.
  all: simpl;
    first [ by apply paired_signup | by apply paired_login | by apply paired_logout
          | by apply paired_forgot | by apply paired_reset
          | apply paired_Depends; [|done]; intros user ].
  - apply preserves_ret.
  - apply paired_update_settings.
  - apply paired_list_meds.
  - apply paired_create_med.
  - apply paired_update_med.
  - apply paired_delete_med.
  - apply paired_mark_taken.
  - apply paired_snooze.
Qed.

Lemma reachable_paired w : reachable env w → reset_paired w.
Proof.
  induction 1 as [t dr|t dr|r w _ IH].
  - apply reset_paired_unconfigured.
  - intros id u Hu. unfold user_of in Hu; simpl in Hu.
    by rewrite lookup_empty in Hu.
  - by apply paired_serve.
Qed.

Lemma reset_no_TypeError p w :
  reset_paired w → fst (reset env p w) ≠ inl TypeError.
Proof.
  intros Hw. destruct w as [[d|] t dr]; [|done].
  rewrite reset_run.
  destruct (find_one _ _) as [[id u]|] eqn:Hfind; simpl; [|done].
  destruct (opt_str_ne _ _) eqn:Hne; simpl; [done|].
  apply opt_str_ne_false in Hne.
  apply find_one_Some in Hfind as [Hu _].
  destruct (Hw id u Hu) as [Hpair _].
  destruct Hpair as [e He]; [by eexists|]. rewrite He.
  by destruct (e <? clock env t).
Qed.

(** C10. A world in which every user document has [reset_token] exactly when
    it has [reset_token_expires] is still such a world after any request is
    served, and in such a world [reset] never compares a missing
    [reset_token_expires]: it does not end in the [TypeError] of that
    comparison. *)
Theorem reset_fields_paired r p w :
  reset_paired w →
  reset_paired (serve env r w) ∧ fst (reset env p w) ≠ inl TypeError.
Proof.
  intros Hw. split; [by apply paired_serve | by apply reset_no_TypeError].
Qed.

End ResetPairing.

(** ** The theorems at work on the example deployment *)

Lemma example_world_paired : reset_paired Example.world.
Proof.
  intros id u Hu. unfold user_of in Hu; simpl in Hu.
  apply lookup_singleton_Some in Hu as [_ <-].
  split; intros _; by eexists.
Qed.

(** Alice's session, read after it expired: answered "Session expired" and
    deleted. *)
Lemma get_current_user_expiry_witness :
  fst (get_current_user (Example.frozen 9000) (Some "Bearer T1") Example.world)
  = inl (HTTPException 401 "Session expired")
  ∧ session_of
      (snd (get_current_user (Example.frozen 9000) (Some "Bearer T1") Example.world))
      1%N = None.
Proof.
  destruct (get_current_user_expiry (Example.frozen 9000) "Bearer T1" "T1"
              Example.world 1%N Example.alice_session 1%N 5000)
    as (_ & Hexpired & _); [reflexivity..|].
  apply Hexpired; [by eexists | reflexivity].
Defined.

(** C1 as stated fails. The session "T9" expired at 5000 and its user
    document is gone: read at 9000 it is answered "User not found", not
    "Session expired", and it is still stored. And Alice's session "T1",
    read exactly at its [expires_at], is accepted. *)
Lemma get_current_user_expired_orphan :
  session_by_token Example.world "T9" = Some (2%N, Example.orphan_session)
  ∧ Session.expires_at Example.orphan_session = Some 5000
  ∧ clock (Example.frozen 9000) (ticks Example.world) = 9000
  ∧ get_current_user (Example.frozen 9000) (Some "Bearer T9") Example.world
    = (inl (HTTPException 401 "User not found"), Example.world)
  ∧ Session.expires_at Example.alice_session
    = Some (clock (Example.frozen 5000) (ticks Example.world))
  ∧ fst (get_current_user (Example.frozen 5000) (Some "Bearer T1") Example.world)
    = inr Example.alice_principal.
Proof. vm_compute. repeat split. Qed.

(** Alice resets her password before the token expires. *)
Lemma reset_succeeds_iff_witness :
  fst (reset (Example.frozen 4000) (ResetIn.mk "a@x.com" "r3s3t" "pw2") Example.world)
  = inr ().
Proof.
  destruct (reset_succeeds_iff (Example.frozen 4000)
              (ResetIn.mk "a@x.com" "r3s3t" "pw2") Example.world)
    as ([_ Hok] & _); [by eexists|].
  apply Hok. exists 1%N, Example.alice, 5000.
  split; [reflexivity|]. split; [reflexivity|]. split; [reflexivity|].
  vm_compute; discriminate.
Defined.

(** C2 as stated fails. Alice's reset token expires at 5000; a [reset] whose
    clock reading is 5000 succeeds. *)
Lemma reset_at_expiry_succeeds :
  user_by_email Example.world "a@x.com" = Some (1%N, Example.alice)
  ∧ User.reset_token Example.alice = Some "r3s3t"
  ∧ User.reset_token_expires Example.alice = Some 5000
  ∧ 5000 ≤ clock (Example.frozen 5000) (ticks Example.world)
  ∧ fst (reset (Example.frozen 5000) (ResetIn.mk "a@x.com" "r3s3t" "pw2")
               Example.world)
    = inr ().
Proof. vm_compute. repeat split. discriminate. Qed.

(** Bob on Alice's aspirin. *)
Lemma foreign_medication_untouched_witness :
  update_med Example.ticking (Bson.str 7) Example.hourly Example.bob_principal
             Example.world
  = (inl (HTTPException 404 "Not found"), Example.world)
  ∧ mark_taken Example.ticking (Bson.str 7) Example.bob_principal Example.world
    = (inl (HTTPException 404 "Not found"), Example.world)
  ∧ snooze Example.ticking (Bson.str 7) Example.bob_principal Example.world
    = (inl (HTTPException 404 "Not found"), Example.world)
  ∧ delete_med (Bson.str 7) Example.bob_principal Example.world
    = (inr (), Example.world).
Proof.
  apply (foreign_medication_untouched Example.ticking (Bson.str 7) Example.hourly
           Example.bob_principal Example.world 7%N Example.aspirin);
    [reflexivity | reflexivity | vm_compute; discriminate].
Defined.

(** C3 as stated fails for [delete_med]: Bob deleting Alice's aspirin is
    answered ok, not "Not found" (and the aspirin stays). *)
Lemma delete_med_foreign_answers_ok :
  medication_of Example.world 7%N = Some Example.aspirin
  ∧ Medication.user_id Example.aspirin ≠ Principal._id Example.bob_principal
  ∧ fst (delete_med (Bson.str 7) Example.bob_principal Example.world) = inr ()
  ∧ fst (delete_med (Bson.str 7) Example.bob_principal Example.world)
    ≠ inl (HTTPException 404 "Not found").
Proof. vm_compute. repeat split; discriminate. Qed.

(** C4 fails on the code. [create_med] stores a medication whose frequency
    is none of those [schemas.py] lists. *)
Lemma create_med_stores_unlisted_frequency :
  (MedicationIn.frequency Example.hourly ∉ Medication_frequency_Literal)
  ∧ ∃ out id m,
      create_med Example.ticking Example.hourly Example.alice_principal Example.world
      = (inr out, mkWorld
           (Some (mkDatabase {[ 1%N := Example.alice ]}
                    {[ 1%N := Example.alice_session; 2%N := Example.orphan_session ]}
                    (<[ id := m ]> {[ 7%N := Example.aspirin ]})))
           2 0)
      ∧ medication_of Example.world id = None
      ∧ Medication.frequency m = "hourly"
      ∧ MedicationOut.frequency out = "hourly".
Proof.
  split.
  - unfold Medication_frequency_Literal. rewrite !elem_of_cons, elem_of_nil.
    intros [H|[H|[H|[]]]]; discriminate H.
  - eexists _, _, _. split; [apply create_med_run|].
    split; [apply not_elem_of_dom, is_fresh | split; reflexivity].
Qed.

(** Alice takes her aspirin, which was taken and snoozed before. *)
Lemma mark_taken_clears_snooze_witness :
  fst (mark_taken Example.ticking (Bson.str 7) Example.alice_principal Example.world)
  = inr ()
  ∧ ∃ m',
      medication_of
        (snd (mark_taken Example.ticking (Bson.str 7) Example.alice_principal
                         Example.world)) 7%N = Some m'
      ∧ Medication.last_taken_at m' = Some 1000
      ∧ Medication.snooze_until_utc m' = None.
Proof.
  apply (mark_taken_clears_snooze Example.ticking (Bson.str 7)
           Example.alice_principal Example.world 7%N Example.aspirin);
    reflexivity.
Defined.

Lemma snooze_sets_ten_minutes_witness :
  (∃ answered,
     fst (snooze Example.ticking (Bson.str 7) Example.alice_principal Example.world)
     = inr answered)
  ∧ ∃ m',
      medication_of
        (snd (snooze Example.ticking (Bson.str 7) Example.alice_principal
                     Example.world)) 7%N = Some m'
      ∧ Medication.snooze_until_utc m' = Some (1000 + 10 * microseconds_per_minute)
      ∧ Medication.last_taken_at m' = Some 10.
Proof.
  apply (snooze_sets_ten_minutes Example.ticking (Bson.str 7)
           Example.alice_principal Example.world 7%N Example.aspirin);
    reflexivity.
Defined.

Lemma update_med_frame_witness :
  ∃ out m',
    fst (update_med Example.ticking (Bson.str 7) Example.hourly
                    Example.alice_principal Example.world) = inr out
    ∧ medication_of
        (snd (update_med Example.ticking (Bson.str 7) Example.hourly
                         Example.alice_principal Example.world)) 7%N = Some m'
    ∧ Medication.name m' = "Ibuprofen"
    ∧ Medication.dosage m' = "200mg"
    ∧ Medication.time_12h m' = "8:05 PM"
    ∧ Medication.frequency m' = "hourly"
    ∧ Medication.notes m' = None
    ∧ Medication.last_taken_at m' = Some 10
    ∧ Medication.snooze_until_utc m' = Some 20.
Proof.
  apply (update_med_frame Example.ticking (Bson.str 7) Example.hourly
           Example.alice_principal Example.world 7%N Example.aspirin);
    reflexivity.
Defined.

(** With a clock that does not move between the two readings, the session
    of a signup expires 7 days after its creation. *)
Lemma issued_session_expiry_witness :
  ∃ out sid sess,
    fst (signup (Example.frozen 1000) (SignupIn.mk "Alice" "a@x.com" "pw1")
                Example.empty_world) = inr out
    ∧ session_of (snd (signup (Example.frozen 1000)
                               (SignupIn.mk "Alice" "a@x.com" "pw1")
                               Example.empty_world)) sid = Some sess
    ∧ Session.expires_at sess = Some (Session.created_at sess + mk_timedelta 7 0 0).
Proof.
  destruct (proj1 (issued_session_expiry (Example.frozen 1000))
              (SignupIn.mk "Alice" "a@x.com" "pw1") Example.empty_world)
    as (out & sid & sess & Hout & _ & Hsess & _ & _ & _ & Hsame);
    [by eexists | reflexivity |].
  exists out, sid, sess. repeat split; [exact Hout | exact Hsess |].
  apply Hsame. reflexivity.
Defined.

(** C8 as stated fails. With a clock that advances by a microsecond per
    reading, the session of a signup is created at 1002 and expires at
    1003 plus 7 days. *)
Lemma signup_expiry_off_created_at :
  let w := snd (signup Example.ticking (SignupIn.mk "Alice" "a@x.com" "pw1")
                       Example.empty_world) in
  let sess :=
    Session.mk (Bson.str 0) ("tok" +:+ Bson.str 0) 1002 (Some 604800001003) in
  session_of w 0%N = Some sess
  ∧ Session.created_at sess + mk_timedelta 7 0 0 = 604800001002
  ∧ Session.expires_at sess ≠ Some (Session.created_at sess + mk_timedelta 7 0 0).
Proof. vm_compute. repeat split. discriminate. Qed.

Lemma example_upper_on_ascii : upper_on_ascii Example.ticking.
Proof. intros s _. reflexivity. Qed.

(** Creating the example medication stores "8:05 PM". *)
Lemma time_12h_uppercased_witness :
  (∃ out id m',
     fst (create_med Example.ticking Example.hourly Example.alice_principal
                     Example.world) = inr out
     ∧ medication_of
         (snd (create_med Example.ticking Example.hourly Example.alice_principal
                          Example.world)) id = Some m'
     ∧ Medication.time_12h m' = "8:05 PM")
  ∧ str_upper Example.ticking "8:05 pm" = "8:05 PM".
Proof.
  destruct (time_12h_uppercased Example.ticking) as (Hcreate & _ & Hascii).
  split.
  - destruct (Hcreate Example.hourly Example.alice_principal Example.world)
      as (out & id & m' & Hout & _ & _ & Hm' & Htime & _); [by eexists|].
    exists out, id, m'. repeat split; [exact Hout | exact Hm' | exact Htime].
  - apply (Hascii example_upper_on_ascii).
Defined.

(** Serving a [forgot] for Alice keeps the pairing, and her [reset] does not
    end in a [TypeError]. *)
Lemma reset_fields_paired_witness :
  reset_paired (serve Example.ticking (POST_auth_forgot (ForgotIn.mk "a@x.com"))
                      Example.world)
  ∧ fst (reset Example.ticking (ResetIn.mk "a@x.com" "r3s3t" "pw2") Example.world)
    ≠ inl TypeError.
Proof.
  apply (reset_fields_paired Example.ticking
           (POST_auth_forgot (ForgotIn.mk "a@x.com"))
           (ResetIn.mk "a@x.com" "r3s3t" "pw2") Example.world).
  exact example_world_paired.
Defined.

(** ** More on the auth dependency *)

Lemma lower_app s t : PyStr.lower (s +:+ t) = PyStr.lower s +:+ PyStr.lower t.
Proof. induction s as [|c s IH]; simpl; [done | by rewrite IH]. Qed.

Lemma lower_char_space c : PyStr.lower_char c = " "%char → c = " "%char.
Proof. destruct c as [[] [] [] [] [] [] [] []]; vm_compute; congruence. Qed.

(** A scheme without a space is cut off at the space that follows it. *)
Lemma split1_scheme scheme rest :
  PyStr.split1 " " (PyStr.lower scheme) = [PyStr.lower scheme] →
  PyStr.split1 " " (scheme +:+ String " " rest) = [scheme; rest].
Proof.
  induction scheme as [|c s IH]; simpl; [done|].
  destruct (Ascii.eqb_spec (PyStr.lower_char c) " ") as [Hsp|Hsp]; [done|].
  destruct (Ascii.eqb_spec c " ") as [->|_]; [by destruct Hsp|].
  destruct (PyStr.split1 " " (PyStr.lower s)) as [|x r] eqn:Hs; intros [= Hx].
  - destruct s; simpl in Hs; [done|]. repeat case_match; done.
  - destruct r; [|done]. subst x. by rewrite IH.
Qed.

Section AuthDependency.
Context (env : Env).

(** X1. A request without a usable [Authorization] header (none, an empty
    one, or one that does not start with "bearer " in any letter case) is
    answered 401 "Missing token"; a bearer token no stored session has is
    answered 401 "Invalid token". Neither changes the world. *)
Theorem get_current_user_rejects a w :
  is_Some (db w) →
  (is_bearer a = false →
     get_current_user env a w = (inl (HTTPException 401 "Missing token"), w))
  ∧ (∀ header token,
       a = Some header → is_bearer a = true →
       PyStr.split1 " " header !! 1%nat = Some token →
       session_by_token w token = None →
       get_current_user env a w = (inl (HTTPException 401 "Invalid token"), w)).
Proof.
  intros [d Hd]. destruct w as [odb t dr]. simpl in Hd. subst odb. split.
  - intros Hb. unfold get_current_user. rewrite Hb. reflexivity.
  - intros header token -> Hb Hsplit Hnone. unfold get_current_user.
    rewrite Hb. run_handler. rewrite Hsplit. simpl.
    unfold session_by_token in Hnone. simpl in Hnone. by rewrite Hnone.
Qed.

(** X2. The scheme of the header is read without regard to letter case, and
    the token is all that follows the first space: a header made of any
    spelling of "bearer", a space and the token is treated as
    "Bearer " followed by the token. *)
Theorem bearer_scheme_any_case scheme token w :
  PyStr.lower scheme = "bearer" →
  get_current_user env (Some (scheme +:+ " " +:+ token)) w
  = get_current_user env (Some ("Bearer " +:+ token)) w.
Proof.
  intros Hscheme.
  assert (is_bearer (Some (scheme +:+ " " +:+ token)) = true) as Hb.
  { unfold is_bearer. rewrite lower_app, Hscheme.
    destruct scheme; [done|]. reflexivity. }
  destruct (bearer_header token) as [Hb' Hs'].
  unfold get_current_user. rewrite Hb, Hb'. unfold bearer_token. simpl default.
  change (" " +:+ token) with (String " " token).
  rewrite split1_scheme by (by rewrite Hscheme).
  by rewrite Hs'.
Qed.

(** X3. Validating a token never writes a user or a medication, draws no
    random token, and never adds or changes a session: a session stored
    afterwards was stored before, and when the token is accepted every
    session is kept. *)
Theorem get_current_user_frame a w :
  let w' := snd (get_current_user env a w) in
  draws w' = draws w
  ∧ (∀ id, user_of w' id = user_of w id)
  ∧ (∀ id, medication_of w' id = medication_of w id)
  ∧ (∀ sid s, session_of w' sid = Some s → session_of w sid = Some s)
  ∧ (∀ principal, fst (get_current_user env a w) = inr principal →
       ∀ sid, session_of w' sid = session_of w sid).
Proof.
  destruct w as [[d|] t dr]; [|by repeat split].
  unfold get_current_user. destruct (is_bearer a); [|by repeat split].
  run_handler. unfold user_of, medication_of, session_of.
  repeat (case_match; simpl in *; simplify_eq); repeat split; try done.
  intros sid s. unfold delete_by_id, find_by_id.
  repeat case_match; simplify_eq; try done.
  intros Hs. by apply lookup_delete_Some in Hs as [_ Hs].
Qed.

End AuthDependency.

(** ** More on collections *)

Lemma find_one_insert_new {A} (P : A → bool) (c : gmap N A) k d :
  find_one P c = None → c !! k = None → P d = true →
  find_one P (<[k := d]> c) = Some (k, d).
Proof.
  intros Hnone Hk Hp.
  destruct (find_one P (<[k := d]> c)) as [[k' d']|] eqn:E.
  - apply find_one_Some in E as [Hl Hp'].
    destruct (decide (k' = k)) as [->|Hne].
    + rewrite lookup_insert_eq in Hl. by simplify_eq.
    + rewrite lookup_insert_ne in Hl by done.
      pose proof (find_one_None _ _ _ _ Hnone Hl). congruence.
  - pose proof (find_one_None P _ k d E (lookup_insert_eq _ _ _)). congruence.
Qed.

Lemma find_one_delete_only {A} (P : A → bool) (c : gmap N A) k :
  (∀ k' d', c !! k' = Some d' → P d' = true → k' = k) →
  find_one P (delete k c) = None.
Proof.
  intros Honly.
  destruct (find_one P (delete k c)) as [[k' d']|] eqn:E; [|done].
  apply find_one_Some in E as [Hl Hp].
  apply lookup_delete_Some in Hl as [Hne Hl].
  destruct Hne. symmetry. by eapply Honly.
Qed.

(** ** Generic frame rules *)

Lemma on_db_world Q d t dr : on_db Q (mkWorld (Some d) t dr) ↔ Q d.
Proof.
  unfold on_db; simpl. split; [by intros H; apply H | by intros H ? [= <-]].
Qed.

Lemma on_db_require_ticks Q (w : World) t dr :
  on_db Q w → on_db Q (mkWorld (db w) t dr).
Proof. done. Qed.

Section FrameRules.
Context (env : Env) (Q : Database → Prop).

Lemma on_db_utc_now : preserves (on_db Q) (utc_now env).
Proof. by intros w Hw. Qed.

Lemma on_db_token_urlsafe n : preserves (on_db Q) (secrets_token_urlsafe env n).
Proof. by intros w Hw. Qed.

Lemma on_db_get_user_by_email email : preserves (on_db Q) (get_user_by_email email).
Proof. by intros [[d|] t dr] Hw. Qed.

Lemma on_db_modify_db f :
  (∀ d, Q d → Q (f d)) → preserves (on_db Q) (modify_db f).
Proof.
  intros Hf [[d|] t dr] Hw; [|done]. unfold modify_db; simpl.
  apply on_db_world, Hf. by apply Hw.
Qed.

Lemma on_db_insert_user doc :
  (∀ d, Q d → Q (with_user (λ _, (insert_one doc (db_user d)).2) d)) →
  preserves (on_db Q) (insert_user doc).
Proof.
  intros Hf [[d|] t dr] Hw; [|done]. run_handler.
  apply on_db_world. apply (Hf d). by apply Hw.
Qed.

Lemma on_db_insert_session doc :
  (∀ d, Q d → Q (with_session (λ _, (insert_one doc (db_session d)).2) d)) →
  preserves (on_db Q) (insert_session doc).
Proof.
  intros Hf [[d|] t dr] Hw; [|done]. run_handler.
  apply on_db_world. apply (Hf d). by apply Hw.
Qed.

Lemma on_db_insert_medication doc :
  (∀ d, Q d → Q (with_medication (λ _, (insert_one doc (db_medication d)).2) d)) →
  preserves (on_db Q) (insert_medication doc).
Proof.
  intros Hf [[d|] t dr] Hw; [|done]. run_handler.
  apply on_db_world. apply (Hf d). by apply Hw.
Qed.

End FrameRules.

(** One step of a proof that a handler keeps a property of the store;
    [side] proves that a write keeps it. *)
Ltac db_step side :=
  first
    [ apply preserves_ret | apply preserves_raise
    | apply preserves_require_db | apply preserves_read_db
    | apply preserves_ObjectId | apply preserves_bearer_token
    | apply on_db_utc_now | apply on_db_token_urlsafe
    | apply on_db_get_user_by_email
    | apply on_db_modify_db; intros ? ?; by side
    | apply on_db_insert_user; intros ? ?; by side
    | apply on_db_insert_session; intros ? ?; by side
    | apply on_db_insert_medication; intros ? ?; by side
    | apply preserves_bind
    | match goal with |- ∀ _, _ => intros ? end
    | progress case_match ].

Lemma preserves_Depends {A} env (P : World → Prop) a (handler : Principal.t → M A) :
  preserves P (get_current_user env a) →
  (∀ user, preserves P (handler user)) →
  preserves P (Depends env a handler).
Proof. intros Hg Hh. unfold Depends. by apply preserves_bind. Qed.

(** ** Accounts *)

Section Accounts.
Context (env : Env).

Lemma emails_unique_world d t dr :
  emails_unique (mkWorld (Some d) t dr) ↔ db_emails_unique d.
Proof. reflexivity. Qed.

Lemma emails_unique_on_db w : emails_unique w ↔ on_db db_emails_unique w.
Proof.
  destruct w as [[d|] t dr].
  - by rewrite on_db_world.
  - split; [done|]. intros _ i j u v Hu. discriminate Hu.
Qed.

Lemma lookup_alter_email id (g : User.t → User.t) (c : gmap N User.t) i u :
  (∀ u, User.email (g u) = User.email u) →
  alter g id c !! i = Some u →
  ∃ u0, c !! i = Some u0 ∧ User.email u = User.email u0.
Proof.
  intros Hg. destruct (decide (id = i)) as [->|Hne].
  - rewrite lookup_alter_eq. destruct (c !! i) as [u0|]; [|done].
    intros [= <-]. exists u0. by rewrite Hg.
  - rewrite lookup_alter_ne by done. intros Hi. by exists u.
Qed.

Lemma db_emails_unique_update id g d :
  (∀ u, User.email (g u) = User.email u) →
  db_emails_unique d → db_emails_unique (with_user (update_by_id id g) d).
Proof.
  intros Hg Hd i j u v. unfold with_user, update_by_id; simpl.
  intros Hi Hj Heq.
  apply (lookup_alter_email _ _ _ _ _ Hg) in Hi as (u0 & Hi & Hu).
  apply (lookup_alter_email _ _ _ _ _ Hg) in Hj as (v0 & Hj & Hv).
  apply (Hd i j u0 v0 Hi Hj). congruence.
Qed.

Lemma db_emails_unique_update_oid o g d :
  (∀ u, User.email (g u) = User.email u) →
  db_emails_unique d → db_emails_unique (with_user (update_by_oid o g) d).
Proof.
  intros Hg Hd. destruct o as [id|binary]; [by apply db_emails_unique_update|].
  by destruct d.
Qed.

(** X4. [signup] with an email some user already has is answered 400
    "Email already registered" and writes nothing. With an email no user
    has it succeeds and stores a user document with the digest of the
    password, notifications enabled and no reset fields, which a lookup by
    that email then finds. *)
Theorem signup_outcome p w :
  is_Some (db w) →
  (is_Some (user_by_email w (SignupIn.email p)) →
     signup env p w = (inl (HTTPException 400 "Email already registered"), w))
  ∧ (user_by_email w (SignupIn.email p) = None →
     ∃ out uid u,
       fst (signup env p w) = inr out
       ∧ TokenOut.notifications_enabled out = true
       ∧ user_of w uid = None
       ∧ user_by_email (snd (signup env p w)) (SignupIn.email p) = Some (uid, u)
       ∧ User.name u = SignupIn.name p
       ∧ User.password_hash u = hash_password env (SignupIn.password p)
       ∧ User.notifications_enabled u = Some true
       ∧ User.reset_token u = None
       ∧ User.reset_token_expires u = None).
Proof.
  intros [d Hd]. destruct w as [odb t dr]. simpl in Hd. subst odb.
  rewrite user_by_email_world. split.
  - intros [x Hx]. by apply signup_duplicate with x.
  - intros Hnone. rewrite (signup_run _ _ _ _ _ Hnone). simpl.
    eexists _, (fresh (dom (db_user d))), _. split; [done|]. split; [done|].
    unfold user_of; simpl. split; [apply not_elem_of_dom, is_fresh|].
    rewrite user_by_email_world. simpl.
    split.
    { apply find_one_insert_new; [done | apply not_elem_of_dom, is_fresh|].
      simpl. apply String.eqb_refl. }
    done.
Qed.

Lemma emails_unique_signup p : preserves emails_unique (signup env p).
Proof.
  intros [[d|] t dr] Hw; [|done].
  destruct (find_one (λ u, String.eqb (User.email u) (SignupIn.email p)) (db_user d))
    as [x|] eqn:Hfind.
  - by rewrite (signup_duplicate _ _ _ _ _ _ Hfind).
  - rewrite (signup_run _ _ _ _ _ Hfind). simpl.
    apply emails_unique_world. intros i j u v; simpl.
    rewrite !lookup_insert. repeat case_decide; subst; try done.
    + intros [= <-] Hj Heq. simpl in Heq.
      pose proof (find_one_None _ _ _ _ Hfind Hj) as Hn.
      apply String.eqb_neq in Hn. congruence.
    + intros Hi [= <-] Heq. simpl in Heq.
      pose proof (find_one_None _ _ _ _ Hfind Hi) as Hn.
      apply String.eqb_neq in Hn. congruence.
    + apply Hw.
Qed.

Ltac emails_side :=
  first [ done
        | apply db_emails_unique_update; [by intros [] | done]
        | apply db_emails_unique_update_oid; [by intros [] | done] ].

Lemma emails_unique_serve r w : emails_unique w → emails_unique (serve env r w).
Proof.
  intros Hw. destruct r; try by rewrite serve_without_store.
  all: simpl; try by apply emails_unique_signup.
  all: apply emails_unique_on_db in Hw; apply emails_unique_on_db; revert w Hw.
  all: try apply preserves_Depends; try intros user.
  all: unfold get_current_user, login, logout, forgot, reset, me, update_settings,
         list_meds, create_med, update_med, delete_med, mark_taken, snooze.
  all: repeat db_step emails_side.
Qed.

(** X5. No request makes two user documents share an email: a world in
    which emails are unique is such a world after any request is served,
    and so is every world reached from an empty store. *)
Theorem emails_stay_unique :
  (∀ r w, emails_unique w → emails_unique (serve env r w))
  ∧ (∀ w, reachable env w → emails_unique w).
Proof.
  split; [apply emails_unique_serve|].
  induction 1 as [t dr|t dr|r w _ IH].
  - intros i j u v Hu. discriminate Hu.
  - intros i j u v Hu. unfold user_of in Hu; simpl in Hu.
    by rewrite lookup_empty in Hu.
  - by apply emails_unique_serve.
Qed.

(** X6. After a [signup] the token it answers authenticates as the new
    user, provided no stored session already has that token, the id the
    store gives the user is a twelve-byte id, and the clock has not passed
    the session's expiry. *)
Theorem signup_then_validate p w :
  is_Some (db w) →
  user_by_email w (SignupIn.email p) = None →
  session_by_token w (token_urlsafe env (draws w) 32) = None →
  (∀ d, db w = Some d → (fresh (dom (db_user d)) < 2 ^ 96)%N) →
  clock env (S (S (S (S (ticks w)))))
    ≤ clock env (S (S (S (ticks w)))) + mk_timedelta 7 0 0 →
  ∃ uid,
    fst (signup env p w)
    = inr (TokenOut.mk (token_urlsafe env (draws w) 32)
                       (SignupIn.name p) (SignupIn.email p) true)
    ∧ user_of w uid = None
    ∧ fst (get_current_user env
             (Some ("Bearer " +:+ token_urlsafe env (draws w) 32))
             (snd (signup env p w)))
      = inr (Principal.mk (Bson.str uid) (SignupIn.name p) (SignupIn.email p) true).
Proof.
  intros [d Hd]. destruct w as [odb t dr]. simpl in Hd. subst odb.
  rewrite user_by_email_world. unfold session_by_token. simpl.
  intros Hnone Htok Hfresh Hclock.
  exists (fresh (dom (db_user d))).
  rewrite (signup_run _ _ _ _ _ Hnone). simpl.
  split; [done|]. split; [apply not_elem_of_dom, is_fresh|].
  destruct (bearer_header (token_urlsafe env dr 32)) as [Hb Hs].
  set (sess := Session.mk (Bson.str (fresh (dom (db_user d))))
                          (token_urlsafe env dr 32) (clock env (S (S t)))
                          (Some (clock env (S (S (S t))) + mk_timedelta 7 0 0))).
  assert (find_one (λ s, String.eqb (Session.token s) (token_urlsafe env dr 32))
            (<[fresh (dom (db_session d)) := sess]> (db_session d))
          = Some (fresh (dom (db_session d)), sess)) as Hfind.
  { apply find_one_insert_new; [done | apply not_elem_of_dom, is_fresh|].
    simpl. apply String.eqb_refl. }
  assert (Bson.ObjectId (Session.user_id sess)
          = Some (Bson.Id (fresh (dom (db_user d)))))
    as Hoid by (apply ObjectId_str; by apply Hfresh).
  rewrite (get_current_user_stored env _ _ (mkDatabase _ _ _) _ _ _ _ _
             Hb Hs Hfind Hoid).
  simpl. rewrite lookup_insert_eq. simpl.
  destruct (Z.ltb_spec (clock env (S (S (S t))) + mk_timedelta 7 0 0)
                       (clock env (S (S (S (S t)))))); [lia|done].
Qed.

(** X7. After a [signup], a [login] with the same email and password
    succeeds and creates a second session for the same user under another
    [_id]; the session of the signup is still stored. *)
Theorem signup_then_login p w :
  is_Some (db w) →
  user_by_email w (SignupIn.email p) = None →
  let w1 := snd (signup env p w) in
  let r := login env (LoginIn.mk (SignupIn.email p) (SignupIn.password p)) w1 in
  ∃ out sid1 sid2 s1 s2,
    fst r = inr out
    ∧ TokenOut.token out = token_urlsafe env (S (draws w)) 32
    ∧ sid1 ≠ sid2
    ∧ session_of (snd r) sid1 = Some s1
    ∧ session_of (snd r) sid2 = Some s2
    ∧ Session.token s1 = token_urlsafe env (draws w) 32
    ∧ Session.token s2 = TokenOut.token out
    ∧ Session.user_id s1 = Session.user_id s2.
Proof.
  intros [d Hd]. destruct w as [odb t dr]. simpl in Hd. subst odb.
  rewrite user_by_email_world. intros Hnone.
  rewrite (signup_run _ _ _ _ _ Hnone). simpl.
  rewrite login_run. simpl.
  rewrite find_one_insert_new;
    [| done | apply not_elem_of_dom, is_fresh | simpl; apply String.eqb_refl].
  simpl. rewrite String.eqb_refl. simpl.
  set (sid1 := fresh (dom (db_session d))).
  set (s1 := Session.mk _ _ _ _).
  set (sid2 := fresh (dom (<[sid1 := s1]> (db_session d)))).
  assert (sid1 ≠ sid2) as Hne.
  { intros Heq. pose proof (is_fresh (dom (<[sid1 := s1]> (db_session d)))) as Hf.
    fold sid2 in Hf. rewrite <- Heq in Hf. apply Hf.
    apply elem_of_dom. rewrite lookup_insert_eq. by eexists. }
  eexists _, sid1, sid2, s1, _. split; [done|]. split; [done|]. split; [done|].
  unfold session_of; simpl.
  split; [rewrite lookup_insert_ne by done; apply lookup_insert_eq|].
  split; [apply lookup_insert_eq|]. done.
Qed.

(** X8. [login] succeeds exactly when a user is found for the email and
    the digest of the password is the stored one. Otherwise it gives one
    answer, 401 "Invalid credentials", for an unknown email and for a wrong
    password alike, and writes nothing. *)
Theorem login_outcome p w :
  is_Some (db w) →
  ((∃ out, fst (login env p w) = inr out) ↔
     ∃ id u, user_by_email w (LoginIn.email p) = Some (id, u)
             ∧ User.password_hash u = hash_password env (LoginIn.password p))
  ∧ ((∃ out, fst (login env p w) = inr out)
     ∨ login env p w = (inl (HTTPException 401 "Invalid credentials"), w)).
Proof.
  intros [d Hd]. destruct w as [odb t dr]. simpl in Hd. subst odb.
  rewrite user_by_email_world, login_run.
  destruct (find_one _ _) as [[id u]|]; simpl.
  - destruct (String.eqb_spec (User.password_hash u)
                              (hash_password env (LoginIn.password p))); simpl.
    + split; [|left; by eexists]. split; [|by eexists]. intros _. by exists id, u.
    + split; [|by right]. split; [by intros [? ?]|].
      intros (? & ? & [= <- <-] & ?). done.
  - split; [|by right]. split; [by intros [? ?] | by intros (? & ? & ? & _)].
Qed.

(** X9. [login] never touches what is stored already: every session,
    user and medication stored before is stored unchanged afterwards,
    whether the login succeeds or not. *)
Theorem login_keeps_store p w :
  let w' := snd (login env p w) in
  (∀ sid s, session_of w sid = Some s → session_of w' sid = Some s)
  ∧ (∀ id, user_of w' id = user_of w id)
  ∧ (∀ id, medication_of w' id = medication_of w id).
Proof.
  destruct w as [[d|] t dr]; [|done].
  rewrite login_run. unfold session_of, user_of, medication_of.
  run_cases; repeat split; try done.
  intros sid s Hs. by apply insert_one_old.
Qed.

End Accounts.

(** ** Logout, password reset and settings *)

(** A header that passes the bearer check is a spelling of "bearer", a
    space and the rest. *)
Lemma is_bearer_shape header :
  is_bearer (Some header) = true →
  ∃ scheme rest,
    header = scheme +:+ String " " rest ∧ PyStr.lower scheme = "bearer".
Proof.
  unfold is_bearer. rewrite andb_true_iff. intros [_ Hstart].
  do 7 (destruct header as [|?c header];
        [simpl in Hstart; rewrite ?andb_false_r in Hstart; done|]).
  simpl in Hstart. rewrite !andb_true_iff, !Ascii.eqb_eq in Hstart.
  destruct Hstart as (H1 & H2 & H3 & H4 & H5 & H6 & H7 & _).
  apply lower_char_space in H7. subst.
  exists (String c (String c0 (String c1 (String c2 (String c3 (String c4 ""))))))%string,
         header.
  split; [done|]. simpl. by rewrite H1, H2, H3, H4, H5, H6.
Qed.

(** So the index [1] after the split is always there. *)
Lemma bearer_token_found header :
  is_bearer (Some header) = true →
  ∃ token, PyStr.split1 " " header !! 1%nat = Some token.
Proof.
  intros (scheme & rest & -> & Hscheme)%is_bearer_shape.
  exists rest. rewrite split1_scheme; [done | by rewrite Hscheme].
Qed.

Section LogoutResetSettings.
Context (env : Env).

(** X10. With a store, [logout] always answers ok and writes no user and
    no medication. Without a bearer header, or with a token no session
    has, the world is unchanged; otherwise the session found for the token
    is deleted and every other session is kept. *)
Theorem logout_effect a w :
  is_Some (db w) →
  let w' := snd (logout a w) in
  fst (logout a w) = inr ()
  ∧ (∀ id, user_of w' id = user_of w id)
  ∧ (∀ id, medication_of w' id = medication_of w id)
  ∧ (is_bearer a = false → w' = w)
  ∧ (∀ header token,
       a = Some header → is_bearer a = true →
       PyStr.split1 " " header !! 1%nat = Some token →
       match session_by_token w token with
       | None => w' = w
       | Some (sid, _) =>
           session_of w' sid = None
           ∧ ∀ sid', sid' ≠ sid → session_of w' sid' = session_of w sid'
       end).
Proof.
  intros [d Hd]. destruct w as [odb t dr]. simpl in Hd. subst odb.
  unfold logout. destruct (is_bearer a) eqn:Hb.
  - destruct a as [header|]; [|done].
    destruct (bearer_token_found _ Hb) as [token Htoken].
    run_handler. rewrite Htoken. simpl.
    split; [done|]. split; [done|]. split; [done|]. split; [done|].
    intros ? ? [= <-] _ Heq. rewrite Htoken in Heq. simplify_eq.
    unfold session_by_token, session_of, with_session, delete_one. simpl.
    destruct (find_one _ _) as [[sid s]|]; simpl.
    + split; [apply lookup_delete_eq|]. intros sid' Hne.
      by apply lookup_delete_ne.
    + by destruct d.
  - run_handler. repeat split; done.
Qed.

(** X11. After a [logout], the token is answered 401 "Invalid token",
    when no other stored session has the same token. *)
Theorem logout_then_validate header token w sid s :
  is_bearer (Some header) = true →
  PyStr.split1 " " header !! 1%nat = Some token →
  session_by_token w token = Some (sid, s) →
  (∀ sid' s', session_of w sid' = Some s' → Session.token s' = token → sid' = sid) →
  get_current_user env (Some header) (snd (logout (Some header) w))
  = (inl (HTTPException 401 "Invalid token"), snd (logout (Some header) w)).
Proof.
  intros Hb Hsplit Hfind Honly.
  destruct w as [[d|] t dr]; [|done].
  unfold session_by_token in Hfind. unfold session_of in Honly.
  simpl in Hfind, Honly.
  unfold logout, get_current_user. rewrite !Hb. run_handler.
  rewrite !Hsplit. simpl.
  unfold delete_one. rewrite Hfind.
  rewrite find_one_delete_only; [done|].
  intros k' d' Hk' Hp. apply (Honly k' d' Hk'). by apply String.eqb_eq.
Qed.

(** X12. [forgot] answers a token exactly when a user is found for the
    email. For an email no user has it answers ok without a token and
    writes nothing: it reads no clock and draws no token. *)
Theorem forgot_unknown_email p w :
  is_Some (db w) →
  (fst (forgot env p w) = inr None ↔ user_by_email w (ForgotIn.email p) = None)
  ∧ (user_by_email w (ForgotIn.email p) = None → forgot env p w = (inr None, w)).
Proof.
  intros [d Hd]. destruct w as [odb t dr]. simpl in Hd. subst odb.
  rewrite user_by_email_world, forgot_run.
  destruct (find_one _ _) as [[id u]|]; simpl; by repeat split.
Qed.

(** X14. After a [forgot] for a known email, a [reset] for that email
    succeeds with the token [forgot] answered as long as the clock reading
    is at most one hour after the reading of [forgot], is refused with it
    later, and is refused with any other token: a token issued earlier no
    longer works. *)
Theorem forgot_then_reset p w id u tok new_password :
  user_by_email w (ForgotIn.email p) = Some (id, u) →
  let issued := token_urlsafe env (draws w) 8 in
  let w1 := snd (forgot env p w) in
  let r := reset env (ResetIn.mk (ForgotIn.email p) tok new_password) w1 in
  let refused : exn + () := inl (HTTPException 400 "Invalid or expired token") in
  fst (forgot env p w) = inr (Some issued)
  ∧ (tok = issued →
     clock env (S (ticks w)) ≤ clock env (ticks w) + 60 * microseconds_per_minute →
     fst r = inr ())
  ∧ (tok = issued →
     clock env (ticks w) + 60 * microseconds_per_minute < clock env (S (ticks w)) →
     fst r = refused)
  ∧ (tok ≠ issued → fst r = refused).
Proof.
  destruct w as [[d|] t dr]; [|done]. rewrite user_by_email_world. intros Hfind.
  simpl. rewrite forgot_run, Hfind. simpl. split; [done|].
  rewrite reset_run. simpl.
  rewrite find_one_alter, Hfind by done. rewrite decide_True by done. simpl.
  change (mk_timedelta 0 1 0) with (60 * microseconds_per_minute).
  destruct (String.eqb_spec (token_urlsafe env dr 8) tok) as [<-|Hne]; simpl.
  - destruct (Z.ltb_spec (clock env t + 60 * microseconds_per_minute)
                         (clock env (S t))); simpl;
      (split; [intros _ ?; try done; lia|]);
      (split; [intros _ ?; try done; lia|]); done.
  - split; [by intros ->|]. split; [by intros ->|]. done.
Qed.

(** X15. [reset] never touches a session or a medication, and neither adds
    nor removes a user: sessions issued before a password reset stay as
    they are. *)
Theorem reset_keeps_sessions p w :
  let w' := snd (reset env p w) in
  (∀ sid, session_of w' sid = session_of w sid)
  ∧ (∀ id, medication_of w' id = medication_of w id)
  ∧ (∀ id, is_Some (user_of w' id) ↔ is_Some (user_of w id)).
Proof.
  destruct w as [[d|] t dr]; [|done].
  rewrite reset_run. unfold session_of, medication_of, user_of.
  run_cases; repeat split; try done.
  all: rewrite lookup_alter; case_decide; subst; try done.
  all: by rewrite is_Some_alt; destruct (db_user d !! _).
Qed.

(** X16. After a successful [reset], [login] with the email and the new
    password succeeds, and [login] with a password whose digest differs
    from the new one is answered 401. *)
Theorem reset_then_login p w :
  fst (reset env p w) = inr () →
  let w' := snd (reset env p w) in
  (∃ out, fst (login env (LoginIn.mk (ResetIn.email p) (ResetIn.new_password p)) w')
          = inr out)
  ∧ (∀ password,
       hash_password env password ≠ hash_password env (ResetIn.new_password p) →
       fst (login env (LoginIn.mk (ResetIn.email p) password) w')
       = inl (HTTPException 401 "Invalid credentials")).
Proof.
  destruct w as [[d|] t dr]; [|done].
  rewrite reset_run.
  destruct (find_one _ _) as [[id u]|] eqn:Hfind; simpl; [|done].
  destruct (opt_str_ne _ _); simpl; [done|].
  destruct (User.reset_token_expires u) as [e|]; simpl; [|done].
  destruct (e <? clock env t); simpl; [done|]. intros _.
  split.
  - rewrite login_run. simpl. rewrite find_one_alter, Hfind by done.
    rewrite decide_True by done. simpl. rewrite String.eqb_refl. by eexists.
  - intros password Hne. rewrite login_run. simpl.
    rewrite find_one_alter, Hfind by done.
    rewrite decide_True by done. simpl.
    destruct (String.eqb_spec (hash_password env (ResetIn.new_password p))
                              (hash_password env password)); [congruence|done].
Qed.

(** X17. [update_settings] is a partial update. Without a value it answers
    the principal as it is and writes nothing. With a value it sets
    [notifications_enabled] of the principal's user document, if there is
    one, and nothing else in the store, and answers the principal with the
    new value. *)
Theorem update_settings_partial settings user w :
  is_Some (db w) →
  let r := update_settings settings user w in
  (SettingsIn.notifications_enabled settings = None → r = (inr user, w))
  ∧ (∀ b uid,
       SettingsIn.notifications_enabled settings = Some b →
       Bson.ObjectId (Principal._id user) = Some (Bson.Id uid) →
       fst r = inr (Principal.mk (Principal._id user) (Principal.name user)
                                 (Principal.email user) b)
       ∧ user_of (snd r) uid = user_set_notifications b <$> user_of w uid
       ∧ (∀ id, id ≠ uid → user_of (snd r) id = user_of w id)
       ∧ (∀ sid, session_of (snd r) sid = session_of w sid)
       ∧ (∀ id, medication_of (snd r) id = medication_of w id)).
Proof.
  intros [d Hd]. destruct w as [odb t dr]. simpl in Hd. subst odb.
  unfold update_settings. split.
  - intros ->. reflexivity.
  - intros b uid -> Hoid. run_handler. rewrite Hoid. simpl.
    unfold user_of, session_of, medication_of, update_by_id. simpl.
    split; [done|]. split; [apply lookup_alter_eq|].
    split; [|done]. intros id Hne. by apply lookup_alter_ne.
Qed.

End LogoutResetSettings.

(** ** More on the medication handlers *)

#[local] Instance created_before_total : Total created_before.
Proof. intros a b. unfold created_before. lia. Qed.

#[local] Instance created_before_transitive : Transitive created_before.
Proof. intros a b c. unfold created_before. lia. Qed.


Lemma list_filter_Permutation {A} (f : A → bool) (l l' : list A) :
  l ≡ₚ l' → List.filter f l ≡ₚ List.filter f l'.
Proof.
  induction 1 as [|x l l' _ IH|x y l|l l' l'' _ IH1 _ IH2]; simpl.
  - done.
  - destruct (f x); [by constructor | done].
  - destruct (f x), (f y); try done. apply perm_swap.
  - by etrans.
Qed.

Section MoreMedications.
Context (env : Env).

(** X18. [list_meds] answers the medications of the principal and no
    others, each once, in the order of their [created_at], and writes
    nothing. *)
Theorem list_meds_owned_sorted user w :
  is_Some (db w) →
  ∃ meds,
    list_meds user w
    = (inr (List.map (λ kv, medication_out (fst kv) (snd kv)) meds), w)
    ∧ StronglySorted created_before meds
    ∧ NoDup meds
    ∧ ∀ id m, (id, m) ∈ meds ↔
              medication_of w id = Some m
              ∧ Medication.user_id m = Principal._id user.
Proof.
  intros [d Hd]. destruct w as [odb t dr]. simpl in Hd. subst odb.
  eexists. split; [reflexivity|].
  split; [apply StronglySorted_merge_sort; apply _|].
  split.
  - rewrite merge_sort_Permutation. apply NoDup_ListNoDup, List.NoDup_filter.
    apply NoDup_ListNoDup, NoDup_map_to_list.
  - intros id m. rewrite merge_sort_Permutation.
    rewrite list_elem_of_In, filter_In, <- list_elem_of_In, elem_of_map_to_list.
    unfold medication_of, owned_by. simpl. by rewrite String.eqb_eq.
Qed.

(** X19. [create_med] always succeeds on a configured store: the new
    medication gets an [_id] no medication had, belongs to the principal,
    has neither [last_taken_at] nor [snooze_until_utc], and every
    medication, user and session stored before is unchanged. *)
Theorem create_med_new_idle med user w :
  is_Some (db w) →
  let w' := snd (create_med env med user w) in
  ∃ out id m,
    fst (create_med env med user w) = inr out
    ∧ MedicationOut.id out = Bson.str id
    ∧ MedicationOut.last_taken_at out = None
    ∧ MedicationOut.snooze_until_utc out = None
    ∧ medication_of w id = None
    ∧ medication_of w' id = Some m
    ∧ Medication.user_id m = Principal._id user
    ∧ Medication.last_taken_at m = None
    ∧ Medication.snooze_until_utc m = None
    ∧ (∀ id', id' ≠ id → medication_of w' id' = medication_of w id')
    ∧ (∀ id', user_of w' id' = user_of w id')
    ∧ (∀ sid, session_of w' sid = session_of w sid).
Proof.
  intros [d Hd]. destruct w as [odb t dr]. simpl in Hd. subst odb.
  rewrite create_med_run. simpl.
  eexists _, (fresh (dom (db_medication d))), _.
  unfold medication_of, user_of, session_of; simpl.
  split; [done|]. do 3 (split; [done|]).
  split; [apply not_elem_of_dom, is_fresh|].
  split; [apply lookup_insert_eq|]. do 3 (split; [done|]).
  split; [|done]. intros id' Hne. by apply lookup_insert_ne.
Qed.

(** X20. A medication just created is in the answer of [list_meds] for the
    same principal, which is one item longer than before. *)
Theorem create_then_list med user w :
  is_Some (db w) →
  let w' := snd (create_med env med user w) in
  ∃ out before after,
    fst (create_med env med user w) = inr out
    ∧ fst (list_meds user w) = inr before
    ∧ fst (list_meds user w') = inr after
    ∧ out ∈ after
    ∧ length after = S (length before).
Proof.
  intros [d Hd]. destruct w as [odb t dr]. simpl in Hd. subst odb.
  rewrite create_med_run. simpl.
  set (id := fresh (dom (db_medication d))).
  set (doc := Medication.mk _ _ _ _ _ _ _ _ _ _).
  assert (db_medication d !! id = None) as Hid
    by apply not_elem_of_dom, is_fresh.
  eexists _, _, _. split; [done|]. split; [reflexivity|]. split; [reflexivity|].
  simpl.
  assert (List.filter (λ kv, owned_by user kv.2)
            (map_to_list (<[id := doc]> (db_medication d)))
          ≡ₚ (id, doc) :: List.filter (λ kv, owned_by user kv.2)
                            (map_to_list (db_medication d))) as Hperm.
  { etrans; [apply list_filter_Permutation, (map_to_list_insert _ _ _ Hid)|].
    cbn [List.filter]. unfold owned_by at 1. simpl. by rewrite String.eqb_refl. }
  split.
  - apply (list_elem_of_fmap_2 (λ kv, medication_out kv.1 kv.2) _ (id, doc)).
    rewrite merge_sort_Permutation, Hperm. by left.
  - rewrite !length_map, !merge_sort_Permutation, Hperm. done.
Qed.

(** X21. [delete_med] of a medication the principal owns removes it and
    nothing else, and deleting it again changes nothing. *)
Theorem delete_med_owned med_id user w oid m :
  Bson.ObjectId med_id = Some (Bson.Id oid) →
  medication_of w oid = Some m →
  Medication.user_id m = Principal._id user →
  let w' := snd (delete_med med_id user w) in
  fst (delete_med med_id user w) = inr ()
  ∧ medication_of w' oid = None
  ∧ (∀ id, id ≠ oid → medication_of w' id = medication_of w id)
  ∧ (∀ id, user_of w' id = user_of w id)
  ∧ (∀ sid, session_of w' sid = session_of w sid)
  ∧ delete_med med_id user w' = (inr (), w').
Proof.
  intros Hoid Hm Hown.
  apply medication_of_Some in Hm as (d & -> & Hm). simpl.
  apply String.eqb_eq in Hown.
  run_handler. rewrite Hoid. simpl.
  unfold medication_of, user_of, session_of, with_medication, delete_by_id,
    find_by_id, owned_by. simpl. rewrite Hm, Hown. simpl.
  split; [done|]. split; [apply lookup_delete_eq|].
  split; [intros id Hne; by apply lookup_delete_ne|].
  split; [done|]. split; [done|].
  by rewrite lookup_delete_eq.
Qed.


(** X23. [update_med], [delete_med], [mark_taken] and [snooze] write no
    user and no session, and no medication other than the one the id
    names, whatever the request and the principal are. *)
Theorem medication_handlers_frame med_id med user w :
  only_medication med_id w (snd (update_med env med_id med user w))
  ∧ only_medication med_id w (snd (delete_med med_id user w))
  ∧ only_medication med_id w (snd (mark_taken env med_id user w))
  ∧ only_medication med_id w (snd (snooze env med_id user w)).
Proof.
  destruct w as [[d|] t dr]; [|by repeat split].
  unfold only_medication.
  split; [|split; [|split]]; run_handler;
    unfold user_of, session_of, medication_of, with_medication, update_by_id,
      delete_by_id;
    run_cases; repeat split; try done; intros id Hne;
    repeat match goal with
           | H : find_by_id _ _ _ = Some _ |- _ =>
               apply find_by_id_Some in H as (-> & ? & ?)
           end;
    first [ by apply lookup_alter_ne; congruence
          | by apply lookup_delete_ne; congruence ].
Qed.

(** X24. The [snooze_until_utc] that [snooze] answers is not the stored
    one but is computed from a later clock reading: it is the stored value
    plus the time the clock advanced over two readings. *)
Theorem snooze_answer_and_store med_id user w oid m :
  Bson.ObjectId med_id = Some (Bson.Id oid) →
  medication_of w oid = Some m →
  Medication.user_id m = Principal._id user →
  ∃ answered stored m',
    fst (snooze env med_id user w) = inr answered
    ∧ medication_of (snd (snooze env med_id user w)) oid = Some m'
    ∧ Medication.snooze_until_utc m' = Some stored
    ∧ answered = stored + (clock env (S (S (ticks w))) - clock env (ticks w))
    ∧ ticks (snd (snooze env med_id user w)) = S (S (S (ticks w))).
Proof.
  intros Hoid Hm Hown.
  apply medication_of_Some in Hm as (d & -> & Hm). simpl.
  erewrite snooze_owned by (try done; by apply String.eqb_eq).
  unfold medication_of; simpl. rewrite lookup_alter_eq, Hm. simpl.
  eexists _, _, _. repeat split. lia.
Qed.

(** X25. Taking and snoozing compose: [snooze] after [mark_taken] keeps the
    [last_taken_at] that [mark_taken] stored and sets the snooze, and
    [mark_taken] after [snooze] clears the snooze. *)
Theorem taken_and_snooze_compose med_id user w oid m :
  Bson.ObjectId med_id = Some (Bson.Id oid) →
  medication_of w oid = Some m →
  Medication.user_id m = Principal._id user →
  (∃ m', medication_of
           (snd (snooze env med_id user (snd (mark_taken env med_id user w)))) oid
         = Some m'
         ∧ Medication.last_taken_at m' = Some (clock env (ticks w))
         ∧ Medication.snooze_until_utc m'
           = Some (clock env (S (S (ticks w))) + 10 * microseconds_per_minute))
  ∧ (∃ m', medication_of
             (snd (mark_taken env med_id user (snd (snooze env med_id user w)))) oid
           = Some m'
           ∧ Medication.last_taken_at m' = Some (clock env (S (S (S (ticks w)))))
           ∧ Medication.snooze_until_utc m' = None).
Proof.
  intros Hoid Hm Hown.
  apply medication_of_Some in Hm as (d & -> & Hm). simpl.
  apply String.eqb_eq in Hown. split.
  - erewrite mark_taken_owned by done. simpl.
    erewrite snooze_owned;
      [| done | simpl; by rewrite lookup_alter_eq, Hm | done].
    unfold medication_of; simpl. rewrite !lookup_alter_eq, Hm. simpl.
    by eexists.
  - erewrite snooze_owned by done. simpl.
    erewrite mark_taken_owned;
      [| done | simpl; by rewrite lookup_alter_eq, Hm | done].
    unfold medication_of; simpl. rewrite !lookup_alter_eq, Hm. simpl.
    by eexists.
Qed.

End MoreMedications.

(** ** What every request keeps *)

Section RequestInvariants.
Context (env : Env).

Lemma times_uppercase_on_db w :
  times_uppercase env w ↔ on_db (db_times_uppercase env) w.
Proof.
  destruct w as [[d|] t dr].
  - by rewrite on_db_world.
  - split; [done|]. intros _ id m Hm. discriminate Hm.
Qed.

Lemma uppercase_update id g d :
  (∀ m, (∃ s, Medication.time_12h m = str_upper env s) →
        ∃ s, Medication.time_12h (g m) = str_upper env s) →
  db_times_uppercase env d →
  db_times_uppercase env (with_medication (update_by_id id g) d).
Proof.
  intros Hg Hd k m. unfold with_medication, update_by_id; simpl.
  destruct (decide (id = k)) as [->|Hne].
  - rewrite lookup_alter_eq. destruct (db_medication d !! k) as [m0|] eqn:Hk; [|done].
    intros [= <-]. eapply Hg, Hd, Hk.
  - rewrite lookup_alter_ne by done. apply Hd.
Qed.

Lemma uppercase_delete o P d :
  db_times_uppercase env d →
  db_times_uppercase env (with_medication (delete_by_oid o P) d).
Proof.
  intros Hd k m. unfold with_medication, delete_by_oid, delete_by_id; simpl.
  destruct o as [id|binary]; [|apply Hd].
  destruct (find_by_id id P (db_medication d)) as [[k' ?]|]; [|apply Hd].
  intros [_ Hk]%lookup_delete_Some. by eapply Hd.
Qed.

Lemma uppercase_insert doc d :
  (∃ s, Medication.time_12h doc = str_upper env s) →
  db_times_uppercase env d →
  db_times_uppercase env
    (with_medication (λ _, (insert_one doc (db_medication d)).2) d).
Proof.
  intros Hdoc Hd k m. unfold with_medication, insert_one; simpl.
  destruct (decide (fresh (dom (db_medication d)) = k)) as [->|Hne].
  - rewrite lookup_insert_eq. by intros [= <-].
  - rewrite lookup_insert_ne by done. apply Hd.
Qed.

Ltac uppercase_side :=
  first [ done
        | apply uppercase_delete; done
        | apply uppercase_insert; [simpl; by eexists | done]
        | apply uppercase_update;
          [intros ? ?; simpl; first [done | by eexists] | done] ].

Lemma times_uppercase_serve r w :
  times_uppercase env w → times_uppercase env (serve env r w).
Proof.
  intros Hw. destruct r; try by rewrite serve_without_store.
  all: apply times_uppercase_on_db in Hw; apply times_uppercase_on_db.
  all: revert w Hw; simpl.
  all: try apply preserves_Depends; try intros user.
  all: unfold get_current_user, signup, login, logout, forgot, reset, me,
         update_settings, list_meds, create_med, update_med, delete_med,
         mark_taken, snooze.
  all: repeat db_step uppercase_side.
Qed.

Lemma reachable_times_uppercase w : reachable env w → times_uppercase env w.
Proof.
  induction 1 as [t dr|t dr|r w _ IH].
  - intros id m Hm. discriminate Hm.
  - intros id m Hm. unfold medication_of in Hm; simpl in Hm.
    by rewrite lookup_empty in Hm.
  - by apply times_uppercase_serve.
Qed.

(** X26. Every stored [time_12h] went through [str.upper()]: a world in
    which each stored [time_12h] is the uppercase form of some string is
    such a world after any request is served, and so is every world
    reached from an empty store. So, when uppercasing twice is the same as
    uppercasing once, each [time_12h] stored in such a world is its own
    uppercase form. *)
Theorem times_stay_uppercase :
  (∀ r w, times_uppercase env w → times_uppercase env (serve env r w))
  ∧ (∀ w, reachable env w → times_uppercase env w)
  ∧ ((∀ s, str_upper env (str_upper env s) = str_upper env s) →
     ∀ w id m, reachable env w → medication_of w id = Some m →
               str_upper env (Medication.time_12h m) = Medication.time_12h m).
Proof.
  split; [apply times_uppercase_serve|].
  split; [apply reachable_times_uppercase|].
  intros Hidem w id m Hw Hm.
  destruct (reachable_times_uppercase w Hw id m Hm) as [s ->]. apply Hidem.
Qed.

Lemma owner_stored_update id owner created i g d :
  (∀ m, Medication.user_id (g m) = Medication.user_id m
        ∧ Medication.created_at (g m) = Medication.created_at m) →
  db_owner_stored id owner created d →
  db_owner_stored id owner created (with_medication (update_by_id i g) d).
Proof.
  intros Hg (m & Hm & Ho & Hc). unfold db_owner_stored, with_medication, update_by_id.
  simpl. destruct (decide (i = id)) as [->|Hne].
  - exists (g m). rewrite lookup_alter_eq, Hm. simpl.
    destruct (Hg m) as [-> ->]. done.
  - exists m. by rewrite lookup_alter_ne.
Qed.

Lemma owner_stored_update_oid id owner created o (g : User.t → User.t) d :
  db_owner_stored id owner created d →
  db_owner_stored id owner created (with_user (update_by_oid o g) d).
Proof. done. Qed.

Lemma owner_stored_insert id owner created doc d :
  db_owner_stored id owner created d →
  db_owner_stored id owner created
    (with_medication (λ _, (insert_one doc (db_medication d)).2) d).
Proof.
  intros (m & Hm & Ho & Hc). exists m. split; [|done].
  unfold with_medication; simpl. by apply insert_one_old.
Qed.

Lemma owner_if_stored_delete id owner created o P d :
  db_owner_if_stored id owner created d →
  db_owner_if_stored id owner created (with_medication (delete_by_oid o P) d).
Proof.
  intros Hd m. unfold with_medication, delete_by_oid, delete_by_id; simpl.
  destruct o as [i|binary]; [|apply Hd].
  destruct (find_by_id i P (db_medication d)) as [[k' ?]|]; [|apply Hd].
  intros [_ Hk]%lookup_delete_Some. by apply Hd.
Qed.

Ltac owner_side :=
  first [ done
        | apply owner_stored_insert; done
        | apply owner_if_stored_delete; done
        | apply owner_stored_update; [by intros [] | done] ].

Lemma owner_kept_by_delete i a w id m m' :
  medication_of w id = Some m →
  medication_of (serve env (DELETE_medications i a) w) id = Some m' →
  Medication.user_id m' = Medication.user_id m
  ∧ Medication.created_at m' = Medication.created_at m.
Proof.
  intros Hm Hm'.
  assert (on_db (db_owner_if_stored id (Medication.user_id m)
                   (Medication.created_at m)) w) as Hw.
  { destruct w as [[d|] t dr]; [|done]. apply on_db_world.
    intros m0 Hm0. unfold medication_of in Hm. simpl in Hm. by simplify_eq. }
  assert (on_db (db_owner_if_stored id (Medication.user_id m)
                   (Medication.created_at m))
                (serve env (DELETE_medications i a) w)) as Hw'.
  { clear Hm Hm'. revert w Hw. simpl. apply preserves_Depends; [|intros user].
    all: unfold get_current_user, delete_med.
    all: repeat db_step owner_side. }
  destruct (serve env _ w) as [[d'|] t' dr']; [|done].
  apply on_db_world in Hw'. by apply Hw'.
Qed.

Lemma owner_kept_by_others r w id m m' :
  (∀ i a, r ≠ DELETE_medications i a) →
  medication_of w id = Some m →
  medication_of (serve env r w) id = Some m' →
  Medication.user_id m' = Medication.user_id m
  ∧ Medication.created_at m' = Medication.created_at m.
Proof.
  intros Hr Hm Hm'.
  assert (on_db (db_owner_stored id (Medication.user_id m)
                   (Medication.created_at m)) w) as Hw.
  { destruct w as [[d|] t dr]; [|done]. apply on_db_world. by exists m. }
  assert (on_db (db_owner_stored id (Medication.user_id m)
                   (Medication.created_at m)) (serve env r w)) as Hw'.
  { clear Hm Hm'. revert w Hw. destruct r;
      try (intros w Hw; by rewrite serve_without_store).
    all: simpl.
    all: try by destruct (Hr _ _ eq_refl).
    all: try apply preserves_Depends; try intros user.
    all: unfold get_current_user, signup, login, logout, forgot, reset, me,
           update_settings, list_meds, create_med, update_med, mark_taken,
           snooze, insert_user.
    all: repeat db_step owner_side. }
  destruct (serve env r w) as [[d'|] t' dr']; [|done].
  apply on_db_world in Hw' as (m0 & Hm0 & Ho & Hc).
  unfold medication_of in Hm'. simpl in Hm'. by simplify_eq.
Qed.

(** X27. No request changes the owner or the creation time of a stored
    medication: if a medication is stored before a request and a
    medication is stored under the same [_id] after it, the two have the
    same [user_id] and [created_at]. *)
Theorem owner_never_changes r w id m m' :
  medication_of w id = Some m →
  medication_of (serve env r w) id = Some m' →
  Medication.user_id m' = Medication.user_id m
  ∧ Medication.created_at m' = Medication.created_at m.
Proof.
  intros Hm Hm'.
  destruct r;
    first [ by eapply owner_kept_by_delete
          | eapply owner_kept_by_others; [|done..]; intros ? ?; discriminate ].
Qed.

(** X28. Without a configured database every route whose handler or
    dependency calls [require_db] (all but [GET /], [GET /drug-info] and
    [GET /test]) is answered 500 "Database not configured"; those three are
    answered without an exception, [GET /test] reporting the store as not
    connected. No request changes the world: no clock is read and no token
    drawn. *)
Theorem database_not_configured r w :
  db w = None →
  serve env r w = w
  ∧ raised env r w
    = (if consults_db r
       then Some (HTTPException 500 "Database not configured")
       else None)
  ∧ ∃ report,
      fst (test_database env w) = inr report
      ∧ TestReport.connection_status report = "Not Connected"
      ∧ TestReport.collections report = [].
Proof.
  destruct w as [[d|] t dr]; [done|]. intros _.
  split; [|split].
  - destruct r; try done; by rewrite serve_without_store.
  - destruct r; try done; simpl; unfold raised_by, drug_info; by repeat case_match.
  - by eexists.
Qed.

End RequestInvariants.

(** ** What a request can end in *)

Section NoCrash.
Context (env : Env).

Lemma get_current_user_no_crash a w :
  ¬ crash (raised_by (get_current_user env a w)).
Proof.
  destruct w as [[d|] t dr]; [|by intros [|]].
  unfold get_current_user. destruct (is_bearer a) eqn:Hb; [|by intros [|]].
  destruct a as [header|]; [|done].
  destruct (bearer_token_found _ Hb) as [token Htoken].
  run_handler. rewrite Htoken. unfold raised_by. simpl.
  run_cases; by intros [|].
Qed.

Lemma Depends_no_crash {A} a (handler : Principal.t → M A) w :
  (∀ user w', is_Some (db w') → ¬ crash (raised_by (handler user w'))) →
  ¬ crash (raised_by (Depends env a handler w)).
Proof.
  intros Hh. pose proof (get_current_user_no_crash a w) as Hg.
  unfold Depends, mbind, M_bind, raised_by in *.
  destruct (get_current_user env a w) as [[e|user] w'] eqn:Hrun; simpl in *; [done|].
  apply Hh.
  destruct w as [[d|] t dr]; [|done].
  destruct w' as [[d'|] t' dr']; [by eexists|].
  exfalso. revert Hrun. unfold get_current_user.
  destruct (is_bearer a); [|done]. run_handler. run_cases; done.
Qed.

Lemma other_requests_no_crash r w :
  (∀ p, r ≠ POST_auth_reset p) → ¬ crash (raised env r w).
Proof.
  intros Hr.
  destruct r; simpl;
    try (apply Depends_no_crash; intros user [[d'|] t' dr'] [? ?]; simplify_eq;
         unfold raised_by; run_handler; run_cases; by intros [|]).
  - unfold raised_by. simpl. by intros [|].
  - unfold raised_by, drug_info. repeat case_match; simpl; by intros [|].
  - unfold raised_by, test_database. repeat case_match; simpl; by intros [|].
  - destruct w as [[d|] t dr]; [|by intros [|]].
    unfold raised_by. run_handler. run_cases; by intros [|].
  - destruct w as [[d|] t dr]; [|by intros [|]].
    unfold raised_by. rewrite login_run. run_cases; by intros [|].
  - destruct w as [[d|] t dr]; [|by intros [|]].
    unfold logout. destruct (is_bearer authorization) eqn:Hb; [|by intros [|]].
    destruct authorization as [header|]; [|done].
    destruct (bearer_token_found _ Hb) as [token Htoken].
    unfold raised_by. run_handler. rewrite Htoken. by intros [|].
  - destruct w as [[d|] t dr]; [|by intros [|]].
    unfold raised_by. rewrite forgot_run. run_cases; by intros [|].
  - by destruct (Hr payload).
Qed.

Lemma reset_no_IndexError p w : raised_by (reset env p w) ≠ Some IndexError.
Proof.
  destruct w as [[d|] t dr]; [|done].
  unfold raised_by. rewrite reset_run. run_cases; done.
Qed.

(** X29. No request ends in an [IndexError], whatever the world is, and in
    a world where the reset fields are paired none ends in a [TypeError]
    either: a request is answered normally, with an [HTTPException], or
    with the [InvalidId] of a malformed id. *)
Theorem requests_do_not_crash r w :
  raised env r w ≠ Some IndexError
  ∧ (reset_paired w → ¬ crash (raised env r w)).
Proof.
  split.
  - destruct r;
      first [ apply reset_no_IndexError
            | match goal with
              | |- raised _ ?r _ ≠ _ =>
                  intros Hi; apply (other_requests_no_crash r w);
                  [intros ? ?; discriminate | by left]
              end ].
  - intros Hpaired.
    destruct r; try (apply other_requests_no_crash; intros ? ?; discriminate).
    intros [Hi|Ht].
    + by apply (reset_no_IndexError payload w).
    + apply (reset_no_TypeError env payload w Hpaired).
      simpl in Ht. unfold raised_by in Ht.
      destruct (fst (reset env payload w)); congruence.
Qed.

End NoCrash.

(** A [reset] in the example world, where Alice's reset fields are
    paired. *)
Lemma requests_do_not_crash_witness :
  raised Example.ticking
         (POST_auth_reset (ResetIn.mk "a@x.com" "r3s3t" "pw2")) Example.world
  ≠ Some IndexError
  ∧ ¬ crash (raised Example.ticking
               (POST_auth_reset (ResetIn.mk "a@x.com" "r3s3t" "pw2")) Example.world).
Proof.
  destruct (requests_do_not_crash Example.ticking
              (POST_auth_reset (ResetIn.mk "a@x.com" "r3s3t" "pw2")) Example.world)
    as [Hindex Hcrash].
  split; [exact Hindex | exact (Hcrash example_world_paired)].
Defined.

(** ** More of the example deployment *)

Lemma example_world_emails_unique : emails_unique Example.world.
Proof.
  intros i j u v Hu Hv _. unfold user_of in *; simpl in *.
  apply lookup_singleton_Some in Hu as [<- _].
  by apply lookup_singleton_Some in Hv as [<- _].
Qed.

Lemma example_world_T1_once sid s :
  session_of Example.world sid = Some s → Session.token s = "T1" → sid = 1%N.
Proof.
  unfold session_of; simpl. intros Hs Htok.
  destruct (decide (sid = 1%N)) as [|Hne]; [done|].
  rewrite lookup_insert_ne in Hs by done.
  apply lookup_singleton_Some in Hs as [_ <-]. discriminate Htok.
Qed.

Lemma get_current_user_rejects_witness :
  get_current_user (Example.frozen 4000) (Some "Token abc") Example.world
  = (inl (HTTPException 401 "Missing token"), Example.world)
  ∧ get_current_user (Example.frozen 4000) (Some "Bearer nope") Example.world
    = (inl (HTTPException 401 "Invalid token"), Example.world).
Proof.
  split.
  - apply (get_current_user_rejects (Example.frozen 4000) (Some "Token abc")
             Example.world); [by eexists | reflexivity].
  - apply (proj2 (get_current_user_rejects (Example.frozen 4000)
                    (Some "Bearer nope") Example.world (ex_intro _ _ eq_refl))
             "Bearer nope" "nope"); reflexivity.
Defined.

Lemma bearer_scheme_any_case_witness :
  get_current_user (Example.frozen 4000) (Some ("BeArEr" +:+ " " +:+ "T1"))
                   Example.world
  = get_current_user (Example.frozen 4000) (Some ("Bearer " +:+ "T1")) Example.world.
Proof.
  apply (bearer_scheme_any_case (Example.frozen 4000) "BeArEr" "T1" Example.world).
  reflexivity.
Defined.

Lemma signup_outcome_witness :
  signup Example.ticking (SignupIn.mk "Alice again" "a@x.com" "pw9") Example.world
  = (inl (HTTPException 400 "Email already registered"), Example.world).
Proof.
  apply (signup_outcome Example.ticking
           (SignupIn.mk "Alice again" "a@x.com" "pw9") Example.world);
    by eexists.
Defined.

Lemma emails_stay_unique_witness :
  emails_unique
    (serve Example.ticking (POST_auth_signup (SignupIn.mk "Bob" "b@x.com" "pw2"))
           Example.world).
Proof.
  apply (proj1 (emails_stay_unique Example.ticking)).
  exact example_world_emails_unique.
Defined.

Lemma signup_then_validate_witness :
  ∃ uid,
    fst (signup (Example.frozen 1000) (SignupIn.mk "Alice" "a@x.com" "pw1")
                Example.empty_world)
    = inr (TokenOut.mk ("tok" +:+ Bson.str 0) "Alice" "a@x.com" true)
    ∧ user_of Example.empty_world uid = None
    ∧ fst (get_current_user (Example.frozen 1000)
             (Some ("Bearer " +:+ ("tok" +:+ Bson.str 0)))
             (snd (signup (Example.frozen 1000) (SignupIn.mk "Alice" "a@x.com" "pw1")
                          Example.empty_world)))
      = inr (Principal.mk (Bson.str uid) "Alice" "a@x.com" true).
Proof.
  apply (signup_then_validate (Example.frozen 1000)
           (SignupIn.mk "Alice" "a@x.com" "pw1") Example.empty_world).
  - by eexists.
  - reflexivity.
  - reflexivity.
  - intros d [= <-]. reflexivity.
  - vm_compute. discriminate.
Defined.

Lemma signup_then_login_witness :
  ∃ out sid1 sid2 s1 s2,
    fst (login Example.ticking (LoginIn.mk "a@x.com" "pw1")
               (snd (signup Example.ticking (SignupIn.mk "Alice" "a@x.com" "pw1")
                            Example.empty_world))) = inr out
    ∧ TokenOut.token out = "tok" +:+ Bson.str 1
    ∧ sid1 ≠ sid2
    ∧ session_of
        (snd (login Example.ticking (LoginIn.mk "a@x.com" "pw1")
                (snd (signup Example.ticking (SignupIn.mk "Alice" "a@x.com" "pw1")
                             Example.empty_world)))) sid1 = Some s1
    ∧ session_of
        (snd (login Example.ticking (LoginIn.mk "a@x.com" "pw1")
                (snd (signup Example.ticking (SignupIn.mk "Alice" "a@x.com" "pw1")
                             Example.empty_world)))) sid2 = Some s2
    ∧ Session.token s1 = "tok" +:+ Bson.str 0
    ∧ Session.token s2 = TokenOut.token out
    ∧ Session.user_id s1 = Session.user_id s2.
Proof.
  apply (signup_then_login Example.ticking (SignupIn.mk "Alice" "a@x.com" "pw1")
           Example.empty_world); [by eexists | reflexivity].
Defined.

Lemma login_outcome_witness :
  login Example.ticking (LoginIn.mk "a@x.com" "wrong") Example.world
  = (inl (HTTPException 401 "Invalid credentials"), Example.world).
Proof.
  destruct (login_outcome Example.ticking (LoginIn.mk "a@x.com" "wrong")
              Example.world) as [Hiff [Hok|Hrefused]]; [by eexists | | exact Hrefused].
  apply Hiff in Hok as (id & u & Hfind & Hpw).
  vm_compute in Hfind. injection Hfind as <- <-. vm_compute in Hpw. discriminate Hpw.
Defined.

Lemma logout_effect_witness :
  fst (logout (Some "Bearer T1") Example.world) = inr ()
  ∧ session_of (snd (logout (Some "Bearer T1") Example.world)) 1%N = None
  ∧ session_of (snd (logout (Some "Bearer T1") Example.world)) 2%N
    = Some Example.orphan_session.
Proof.
  destruct (logout_effect (Some "Bearer T1") Example.world)
    as (Hok & _ & _ & _ & Hdel); [by eexists|].
  split; [exact Hok|].
  specialize (Hdel "Bearer T1" "T1" eq_refl eq_refl eq_refl).
  change (session_by_token Example.world "T1")
    with (Some (1%N, Example.alice_session)) in Hdel.
  destruct Hdel as [Hgone Hkept]. split; [exact Hgone|].
  rewrite Hkept; [reflexivity | discriminate].
Defined.

Lemma logout_then_validate_witness :
  get_current_user (Example.frozen 4000) (Some "Bearer T1")
                   (snd (logout (Some "Bearer T1") Example.world))
  = (inl (HTTPException 401 "Invalid token"),
     snd (logout (Some "Bearer T1") Example.world)).
Proof.
  apply (logout_then_validate (Example.frozen 4000) "Bearer T1" "T1" Example.world
           1%N Example.alice_session);
    [reflexivity | reflexivity | reflexivity | exact example_world_T1_once].
Defined.

Lemma forgot_unknown_email_witness :
  forgot Example.ticking (ForgotIn.mk "nobody@x.com") Example.world
  = (inr None, Example.world).
Proof.
  apply (forgot_unknown_email Example.ticking (ForgotIn.mk "nobody@x.com")
           Example.world); [by eexists | reflexivity].
Defined.

Lemma forgot_sets_both_witness :
  ∃ tok u',
    fst (forgot Example.ticking (ForgotIn.mk "a@x.com") Example.world)
    = inr (Some tok)
    ∧ user_of (snd (forgot Example.ticking (ForgotIn.mk "a@x.com") Example.world))
              1%N = Some u'
    ∧ User.reset_token u' = Some tok
    ∧ User.reset_token_expires u' = Some (1000 + 60 * microseconds_per_minute).
Proof.
  apply (forgot_sets_both Example.ticking (ForgotIn.mk "a@x.com") Example.world
           1%N Example.alice).
  reflexivity.
Defined.

(** Alice asks for a new token: it works, and the old one, "r3s3t", no
    longer does. *)
Lemma forgot_then_reset_witness :
  fst (reset Example.ticking
         (ResetIn.mk "a@x.com" ("tok" +:+ Bson.str 0) "pw2")
         (snd (forgot Example.ticking (ForgotIn.mk "a@x.com") Example.world)))
  = inr ()
  ∧ fst (reset Example.ticking (ResetIn.mk "a@x.com" "r3s3t" "pw2")
           (snd (forgot Example.ticking (ForgotIn.mk "a@x.com") Example.world)))
    = inl (HTTPException 400 "Invalid or expired token").
Proof.
  split.
  - apply (forgot_then_reset Example.ticking (ForgotIn.mk "a@x.com") Example.world
             1%N Example.alice ("tok" +:+ Bson.str 0) "pw2");
      [reflexivity | reflexivity | vm_compute; discriminate].
  - apply (forgot_then_reset Example.ticking (ForgotIn.mk "a@x.com") Example.world
             1%N Example.alice "r3s3t" "pw2"); [reflexivity | vm_compute; discriminate].
Defined.

Lemma reset_then_login_witness :
  ∃ out,
    fst (login (Example.frozen 4000) (LoginIn.mk "a@x.com" "pw2")
               (snd (reset (Example.frozen 4000)
                           (ResetIn.mk "a@x.com" "r3s3t" "pw2") Example.world)))
    = inr out.
Proof.
  apply (reset_then_login (Example.frozen 4000) (ResetIn.mk "a@x.com" "r3s3t" "pw2")
           Example.world).
  reflexivity.
Defined.

Lemma update_settings_partial_witness :
  update_settings (SettingsIn.mk None) Example.alice_principal Example.world
  = (inr Example.alice_principal, Example.world)
  ∧ user_of (snd (update_settings (SettingsIn.mk (Some false))
                                   Example.alice_principal Example.world)) 1%N
    = Some (user_set_notifications false Example.alice).
Proof.
  split.
  - apply (update_settings_partial (SettingsIn.mk None) Example.alice_principal
             Example.world); [by eexists | reflexivity].
  - apply (proj2 (update_settings_partial (SettingsIn.mk (Some false))
                    Example.alice_principal Example.world (ex_intro _ _ eq_refl))
             false 1%N eq_refl eq_refl).
Defined.

Lemma list_meds_owned_sorted_witness :
  ∃ meds,
    list_meds Example.alice_principal Example.world
    = (inr (List.map (λ kv, medication_out (fst kv) (snd kv)) meds), Example.world)
    ∧ StronglySorted created_before meds
    ∧ NoDup meds
    ∧ ∀ id m, (id, m) ∈ meds ↔
              medication_of Example.world id = Some m
              ∧ Medication.user_id m = Principal._id Example.alice_principal.
Proof.
  apply (list_meds_owned_sorted Example.alice_principal Example.world).
  by eexists.
Defined.

Lemma create_med_new_idle_witness :
  ∃ out id m,
    fst (create_med Example.ticking Example.hourly Example.alice_principal
                    Example.world) = inr out
    ∧ medication_of Example.world id = None
    ∧ medication_of
        (snd (create_med Example.ticking Example.hourly Example.alice_principal
                         Example.world)) id = Some m
    ∧ Medication.user_id m = Bson.str 1
    ∧ Medication.last_taken_at m = None
    ∧ Medication.snooze_until_utc m = None.
Proof.
  destruct (create_med_new_idle Example.ticking Example.hourly
              Example.alice_principal Example.world)
    as (out & id & m & Hout & _ & _ & _ & Hnew & Hm & Hown & Htaken & Hsnooze & _);
    [by eexists|].
  exists out, id, m. repeat split; assumption.
Defined.

Lemma create_then_list_witness :
  ∃ out before after,
    fst (create_med Example.ticking Example.hourly Example.alice_principal
                    Example.world) = inr out
    ∧ fst (list_meds Example.alice_principal Example.world) = inr before
    ∧ fst (list_meds Example.alice_principal
             (snd (create_med Example.ticking Example.hourly
                              Example.alice_principal Example.world))) = inr after
    ∧ out ∈ after
    ∧ length after = S (length before).
Proof.
  apply (create_then_list Example.ticking Example.hourly Example.alice_principal
           Example.world).
  by eexists.
Defined.

Lemma delete_med_owned_witness :
  fst (delete_med (Bson.str 7) Example.alice_principal Example.world) = inr ()
  ∧ medication_of (snd (delete_med (Bson.str 7) Example.alice_principal
                                   Example.world)) 7%N = None.
Proof.
  destruct (delete_med_owned (Bson.str 7) Example.alice_principal Example.world
              7%N Example.aspirin) as (Hok & Hgone & _); [reflexivity..|].
  by split.
Defined.


(** With the ticking clock the answer of [snooze] is two microseconds
    after what it stored. *)
Lemma snooze_answer_and_store_witness :
  ∃ answered stored m',
    fst (snooze Example.ticking (Bson.str 7) Example.alice_principal Example.world)
    = inr answered
    ∧ medication_of
        (snd (snooze Example.ticking (Bson.str 7) Example.alice_principal
                     Example.world)) 7%N = Some m'
    ∧ Medication.snooze_until_utc m' = Some stored
    ∧ answered = stored + 2.
Proof.
  destruct (snooze_answer_and_store Example.ticking (Bson.str 7)
              Example.alice_principal Example.world 7%N Example.aspirin)
    as (answered & stored & m' & Ha & Hm & Hs & Hdiff & _); [reflexivity..|].
  exists answered, stored, m'. repeat split; assumption.
Defined.

Lemma taken_and_snooze_compose_witness :
  ∃ m',
    medication_of
      (snd (snooze Example.ticking (Bson.str 7) Example.alice_principal
              (snd (mark_taken Example.ticking (Bson.str 7)
                               Example.alice_principal Example.world)))) 7%N
    = Some m'
    ∧ Medication.last_taken_at m' = Some 1000
    ∧ Medication.snooze_until_utc m' = Some (1002 + 10 * microseconds_per_minute).
Proof.
  apply (taken_and_snooze_compose Example.ticking (Bson.str 7)
           Example.alice_principal Example.world 7%N Example.aspirin);
    reflexivity.
Defined.

Lemma times_stay_uppercase_witness :
  ∃ m,
    medication_of one_medication_world 0%N = Some m
    ∧ Medication.user_id m = Bson.str 0
    ∧ Medication.time_12h m = "8:05 PM"
    ∧ str_upper Example.ticking (Medication.time_12h m) = Medication.time_12h m.
Proof.
  destruct (times_stay_uppercase Example.ticking) as (_ & _ & Hfixed).
  eexists. split; [vm_compute; reflexivity|].
  split; [reflexivity|]. split; [reflexivity|].
  apply (Hfixed upper_idempotent one_medication_world 0%N).
  - apply reachable_serve, reachable_serve, reachable_empty.
  - vm_compute; reflexivity.
Defined.

(** Alice takes her aspirin: it is still hers. *)
Lemma owner_never_changes_witness :
  Medication.user_id (med_set_taken 4000 4000 Example.aspirin)
  = Medication.user_id Example.aspirin
  ∧ Medication.created_at (med_set_taken 4000 4000 Example.aspirin)
    = Medication.created_at Example.aspirin.
Proof.
  apply (owner_never_changes (Example.frozen 4000)
           (POST_medications_taken (Bson.str 7) (Some "Bearer T1"))
           Example.world 7%N Example.aspirin
           (med_set_taken 4000 4000 Example.aspirin));
    vm_compute; reflexivity.
Defined.

Lemma database_not_configured_witness :
  serve Example.ticking (POST_auth_login (LoginIn.mk "a@x.com" "pw1"))
        (mkWorld None 0 0)
  = mkWorld None 0 0
  ∧ raised Example.ticking (POST_auth_login (LoginIn.mk "a@x.com" "pw1"))
           (mkWorld None 0 0)
    = Some (HTTPException 500 "Database not configured")
  ∧ raised Example.ticking (GET_drug_info "aspirin") (mkWorld None 0 0) = None.
Proof.
  destruct (database_not_configured Example.ticking
              (POST_auth_login (LoginIn.mk "a@x.com" "pw1")) (mkWorld None 0 0)
              eq_refl) as (Hsame & Hraised & _).
  destruct (database_not_configured Example.ticking (GET_drug_info "aspirin")
              (mkWorld None 0 0) eq_refl) as (_ & Hnone & _).
  split; [exact Hsame|]. split; [exact Hraised | exact Hnone].
Defined.
